(** * NYC Datasets Dashboard API: the query handlers of [main.py] over the
      [nyc_datasets] table of [database.py].

    The table is a list of rows in scan order.  Every handler is a
    computation in a small state-and-error monad over that table, built from
    one primitive, [query], which runs a SELECT.  The SQL operators the
    handlers use (WHERE, GROUP BY, ORDER BY, LIMIT, DISTINCT, the aggregates,
    ILIKE, EXTRACT) are given their PostgreSQL meaning in module [sql]:
    [database.py] connects to a [postgresql://] URL.  Handler results are
    JSON values; a Python dict is a [gmap string json].

    Conventions of the model:
    - a nullable column is an [option]; NULL and Python's None are [None];
    - a BigInteger is a [Z]; the handlers do no arithmetic on one, and SUM
      is exact (PostgreSQL sums bigints into a numeric);
    - a text is a [string], one [ascii] per character: the texts of the
      model are those of the code points below 256, and ILIKE folds their
      case as a UTF-8 database under a Unicode-aware collation does;
    - AVG is the exact quotient; a Python float is an IEEE 754 double,
      held as the rational it stands for, so [float] and [round] round to
      the nearest double, ties to even;
    - where SQL leaves an order open (rows that tie under ORDER BY, the
      order of groups and of DISTINCT values) the model fixes one: ties keep
      their scan order. *)

From Stdlib Require Import ZArith QArith Ascii String.
From stdpp Require Import base option list strings gmap sorting.

Local Open Scope Z_scope.
Set Warnings "-clear-no-such-hyp".

(** ** database.py *)

Module database.

(** A [TIMESTAMP] column value, as the driver hands it to Python
    (a naive [datetime]). *)
Record timestamp := {
  ts_year : Z;
  ts_month : Z;
  ts_day : Z;
  ts_hour : Z;
  ts_minute : Z;
  ts_second : Z;
  ts_microsecond : Z
}.

(** class Dataset: one row of [nyc_datasets].  Only [id], the primary key,
    is not nullable; the loader's [parse_int] and [parse_timestamp] store
    None for a blank or malformed value. *)
Record Dataset := {
  id : string;
  name : option string;
  description : option string;
  attribution : option string;
  type : option string;
  data_updated_at : option timestamp;
  page_views_last_week : option Z;
  page_views_last_month : option Z;
  page_views_total : option Z;
  download_count : option Z;
  publication_date : option timestamp;
  domain_category : option string;
  domain_tags : option string;
  dataset_information_agency : option string;
  link : option string
}.

End database.

(** ** Results and errors *)

Inductive error :=
  | DataError   (* the database rejects the statement *)
  | TypeError.  (* Python raises TypeError in the handler *)

Inductive result (A : Type) :=
  | Ok (a : A)
  | Err (e : error).
Arguments Ok {A} a.
Arguments Err {A} e.

Definition is_ok {A} (r : result A) : bool :=
  match r with Ok _ => true | Err _ => false end.

Definition result_map {A B} (f : A → B) (r : result A) : result B :=
  match r with Ok a => Ok (f a) | Err e => Err e end.

(** A comprehension [[f(r) for r in rows]]: the first exception aborts it. *)
Fixpoint result_mapM {A B} (f : A → result B) (l : list A) : result (list B) :=
  match l with
  | [] => Ok []
  | x :: l' =>
      match f x with
      | Err e => Err e
      | Ok y => result_map (cons y) (result_mapM f l')
      end
  end.

(** ** The SQL operators, with PostgreSQL's treatment of NULL *)

Module sql.

(** *** Three-valued predicates; [None] is SQL's unknown. *)

Definition isnot_null {A} (v : option A) : option bool :=
  Some (match v with Some _ => true | None => false end).

Definition gt (a b : option Z) : option bool :=
  match a, b with
  | Some x, Some y => Some (y <? x)
  | _, _ => None
  end.

Definition eq_text (a b : option string) : option bool :=
  match a, b with
  | Some x, Some y => Some (bool_decide (x = y))
  | _, _ => None
  end.

(** WHERE keeps the rows on which the predicate is true, and drops those on
    which it is false or unknown. *)
Definition where_ {A} (p : A → option bool) (rows : list A) : list A :=
  filter (λ r, p r = Some true) rows.

(** *** LIKE and ILIKE *)

(** The lower-case mapping of the database, a UTF-8 one under a
    Unicode-aware collation, on the characters of the model (code points
    below 256): A-Z and the capital letters U+00C0-U+00DE, of which U+00D7
    (the multiplication sign) is none, go to the letter 32 above. *)
Definition is_capital (n : nat) : bool :=
  ((65 <=? n) && (n <=? 90) ||
   (192 <=? n) && (n <=? 222) && negb (n =? 215))%nat.

Definition lower (c : ascii) : ascii :=
  let n := nat_of_ascii c in
  if is_capital n then ascii_of_nat (n + 32) else c.

(** [%] matches any run of characters, [_] any one character, and a
    backslash takes the next pattern character literally; ILIKE puts both
    sides in lower case first.  A pattern that
    ends in a lone backslash matches nothing here; the handlers never build
    one, their patterns end in [%]. *)
Fixpoint like_chars (p : list ascii) : list ascii → bool :=
  match p with
  | [] => λ s, match s with [] => true | _ => false end
  | c :: p' =>
      if bool_decide (c = "%"%char) then
        fix star (s : list ascii) : bool :=
          like_chars p' s || match s with [] => false | _ :: s' => star s' end
      else if bool_decide (c = "_"%char) then
        λ s, match s with [] => false | _ :: s' => like_chars p' s' end
      else if bool_decide (c = "\"%char) then
        match p' with
        | [] => λ _, false
        | e :: p'' =>
            λ s, match s with
                 | [] => false
                 | d :: s' => bool_decide (e = d) && like_chars p'' s'
                 end
        end
      else
        λ s, match s with
             | [] => false
             | d :: s' => bool_decide (c = d) && like_chars p' s'
             end
  end.

Definition chars (s : string) : list ascii := list_ascii_of_string s.

Definition ilike (v : option string) (pattern : string) : option bool :=
  match v with
  | None => None
  | Some s => Some (like_chars (lower <$> chars pattern) (lower <$> chars s))
  end.

(** *** ORDER BY: a stable insertion sort of the rows in scan order. *)

Section order.
Context {A : Type} (leb : A → A → bool).

Fixpoint insert_row (x : A) (l : list A) : list A :=
  match l with
  | [] => [x]
  | y :: l' => if leb x y then x :: y :: l' else y :: insert_row x l'
  end.

Definition sort_rows (l : list A) : list A := foldr insert_row [] l.
End order.

(** DESC: NULLs first (PostgreSQL's default for DESC), then larger values
    before smaller ones. *)
Definition desc_leb (a b : option Z) : bool :=
  match a, b with
  | None, _ => true
  | Some _, None => false
  | Some x, Some y => y <=? x
  end.

(** ASC: smaller values before larger ones, NULLs last. *)
Definition asc_leb (a b : option Z) : bool :=
  match a, b with
  | _, None => true
  | None, Some _ => false
  | Some x, Some y => x <=? y
  end.

Definition order_by_desc {A} (key : A → option Z) (rows : list A) : list A :=
  sort_rows (λ a b, desc_leb (key a) (key b)) rows.

Definition order_by_asc {A} (key : A → option Z) (rows : list A) : list A :=
  sort_rows (λ a b, asc_leb (key a) (key b)) rows.

(** *** LIMIT: a bigint; a negative count is rejected. *)

Definition bigint_max : Z := 9223372036854775807.

Definition limit {A} (n : Z) (rows : list A) : result (list A) :=
  if (n <? 0) || (bigint_max <? n) then Err DataError
  else Ok (take (Z.to_nat n) rows).

(** *** Aggregates: NULL inputs are skipped; SUM and AVG of no input are
    NULL, COUNT of no input is 0. *)

Definition non_null {A} (vals : list (option A)) : list A :=
  omap (λ v, v) vals.

Definition total (vals : list Z) : Z := foldr Z.add 0 vals.

Definition sum (vals : list (option Z)) : option Z :=
  match non_null vals with
  | [] => None
  | vs => Some (total vs)
  end.

Definition count {A} (vals : list (option A)) : Z :=
  Z.of_nat (length (non_null vals)).

Definition count_rows {A} (rows : list A) : Z := Z.of_nat (length rows).

Definition avg (vals : list (option Z)) : option Q :=
  match non_null vals with
  | [] => None
  | vs => Some (Qred (total vs # Pos.of_nat (length vs)))
  end.

(** *** GROUP BY and DISTINCT: one group per distinct key. *)

Definition distinct `{EqDecision K} (keys : list K) : list K :=
  remove_dups keys.

Definition group_by `{EqDecision K} {A} (key : A → K) (rows : list A)
    : list (K * list A) :=
  (λ k, (k, filter (λ r, key r = k) rows)) <$> distinct (key <$> rows).

(** EXTRACT(year FROM ts). *)
Definition extract_year (ts : option database.timestamp) : option Z :=
  database.ts_year <$> ts.

End sql.

(** ** Python values *)

Module py.

(** Truthiness of a string: the empty string is false. *)
Definition truthy (s : string) : bool := negb (bool_decide (s = ""%string)).

(** [x or 0] on a nullable number: None and 0 both give 0. *)
Definition or_zero (v : option Z) : Z :=
  match v with
  | Some x => if x =? 0 then 0 else x
  | None => 0
  end.

Definition or_zero_q (v : option Q) : Q :=
  match v with
  | Some x => if Qeq_bool x 0 then 0%Q else x
  | None => 0%Q
  end.

Definition len (s : string) : Z := Z.of_nat (String.length s).

(** [s[:n]] *)
Definition prefix (n : nat) (s : string) : string := substring 0 n s.

(** [s[:n] + "..." if len(s) > n else s] *)
Definition ellipsize (n : nat) (s : string) : string :=
  if Z.of_nat n <? len s then prefix n s +:+ "..." else s.

(** The integer nearest to a rational, a tie going to the even one. *)
Definition round_half_even (q : Q) : Z :=
  let n := Qnum q in
  let d := Z.pos (Qden q) in
  let f := n `div` d in
  let r2 := 2 * (n `mod` d) in
  if r2 <? d then f
  else if d <? r2 then f + 1
  else if Z.even f then f else f + 1.

(** A Python float is an IEEE 754 double, here the rational it stands for:
    [m * 2 ^ e] with [|m| < 2 ^ 53] and [-1074 <= e].  [floor_log2 n d] is
    the integer part of the binary logarithm of [n / d], for [n] positive;
    [scale2 q e] is [q * 2 ^ e]. *)
Definition floor_log2 (n : Z) (d : positive) : Z :=
  let e := Z.log2 n - Z.log2 (Z.pos d) in
  if (if 0 <=? e then Z.pos d * 2 ^ e <=? n else Z.pos d <=? n * 2 ^ (- e))
  then e else e - 1.

Definition scale2 (q : Q) (e : Z) : Q :=
  if 0 <=? e then (q * inject_Z (2 ^ e))%Q else (q / inject_Z (2 ^ (- e)))%Q.

(** The double nearest to a rational, a tie going to the even mantissa.
    The largest double is not modelled: an average of bigints is far below
    it. *)
Definition nearest_double (q : Q) : Q :=
  if Qnum q =? 0 then 0%Q
  else
    let e := Z.max (floor_log2 (Z.abs (Qnum q)) (Qden q) - 52) (-1074) in
    Qred (scale2 (inject_Z (round_half_even (scale2 q (- e)))) e).

(** [float(x)] of a Decimal or an int: correctly rounded. *)
Definition float (x : Q) : Q := nearest_double x.

(** [round(x, ndigits)] of a float: the decimal with [ndigits] places
    nearest to the exact value of [x], a tie going to the even last place,
    and then the double nearest to that decimal. *)
Definition round (x : Q) (ndigits : nat) : Q :=
  let p := 10 ^ Z.of_nat ndigits in
  nearest_double (Qred (inject_Z (round_half_even (x * inject_Z p)) / inject_Z p)).

(** [datetime.isoformat()] *)
Definition digit (n : Z) : ascii := ascii_of_nat (48 + Z.to_nat (n `mod` 10)).

Fixpoint digits (width : nat) (n : Z) (acc : string) : string :=
  match width with
  | O => acc
  | S w => digits w (n `div` 10) (String (digit n) acc)
  end.

Definition isoformat (ts : database.timestamp) : string :=
  digits 4 (database.ts_year ts) "" +:+ "-" +:+
  digits 2 (database.ts_month ts) "" +:+ "-" +:+
  digits 2 (database.ts_day ts) "" +:+ "T" +:+
  digits 2 (database.ts_hour ts) "" +:+ ":" +:+
  digits 2 (database.ts_minute ts) "" +:+ ":" +:+
  digits 2 (database.ts_second ts) "" +:+
  (if database.ts_microsecond ts =? 0 then ""
   else "." +:+ digits 6 (database.ts_microsecond ts) "").

End py.

(** ** JSON results *)

Inductive json :=
  | JNull
  | JInt (z : Z)
  | JFloat (q : Q)
  | JStr (s : string).

Definition of_text (v : option string) : json :=
  match v with Some s => JStr s | None => JNull end.

Definition of_int (v : option Z) : json :=
  match v with Some z => JInt z | None => JNull end.

(** A dict literal. *)
Definition dict (fields : list (string * json)) : gmap string json :=
  list_to_map fields.

Inductive response :=
  | Object (d : gmap string json)
  | Objects (l : list (gmap string json))
  | Strings (l : list string).

(** ** main.py *)

Module main.
Import database.

(** A handler reads and may fail; it passes the table on. *)
Definition M (A : Type) : Type := list Dataset → result A * list Dataset.

#[export] Instance M_ret : MRet M := λ A a t, (Ok a, t).

#[export] Instance M_bind : MBind M := λ A B f m t,
  match m t with
  | (Ok a, t') => f a t'
  | (Err e, t') => (Err e, t')
  end.

#[export] Instance M_fmap : FMap M := λ A B f m t,
  match m t with
  | (r, t') => (result_map f r, t')
  end.

(** [db.query(...)]: a SELECT evaluated on the table. *)
Definition query {A} (select : list Dataset → result A) : M A :=
  λ t, (select t, t).

(** An exception raised (or not) by the handler's own code. *)
Definition lift {A} (r : result A) : M A := λ t, (r, t).

(** def get_db(): the session is opened on the table, handed to the
    handler and closed on every path; nothing is committed. *)
Definition get_db {A} (handler : M A) : M A :=
  λ t, let '(r, _) := handler t in (r, t).

Definition read_root : M (gmap string json) :=
  mret (dict [("message", JStr "NYC Datasets Dashboard API")]).

Definition get_overview_stats : M (gmap string json) :=
  total_datasets ← query (λ t, Ok (sql.count_rows t));
  total_page_views ←
    py.or_zero <$> query (λ t, Ok (sql.sum (page_views_total <$> t)));
  total_downloads ←
    py.or_zero <$> query (λ t, Ok (sql.sum (download_count <$> t)));
  avg_weekly_views ←
    py.or_zero_q <$> query (λ t, Ok (sql.avg (page_views_last_week <$> t)));
  mret (dict [
    ("total_datasets", JInt total_datasets);
    ("total_page_views", JInt total_page_views);
    ("total_downloads", JInt total_downloads);
    ("avg_weekly_views", JFloat (py.round (py.float avg_weekly_views) 2))
  ]).

Definition top_row (d : Dataset) : gmap string json :=
  dict [
    ("id", JStr (id d));
    ("name", of_text (name d));
    ("page_views_total", of_int (page_views_total d));
    ("download_count", of_int (download_count d));
    ("agency", of_text (dataset_information_agency d));
    ("category", of_text (domain_category d))
  ].

Definition get_top_viewed_datasets (limit : Z) : M (list (gmap string json)) :=
  datasets ← query (λ t,
    sql.limit limit (sql.order_by_desc page_views_total t));
  mret (top_row <$> datasets).

Definition get_top_downloaded_datasets (limit : Z)
    : M (list (gmap string json)) :=
  datasets ← query (λ t,
    sql.limit limit (sql.order_by_desc download_count t));
  mret (top_row <$> datasets).

(** A row of the two grouped queries: the grouping column and the three
    labelled aggregates. *)
Record group_row := {
  group_key : option string;
  dataset_count : Z;
  total_views : option Z;
  total_downloads : option Z
}.

Definition aggregate (g : option string * list Dataset) : group_row :=
  {| group_key := g.1;
     dataset_count := sql.count ((λ d, Some (id d)) <$> g.2);
     total_views := sql.sum (page_views_total <$> g.2);
     total_downloads := sql.sum (download_count <$> g.2) |}.

Definition grouped (column : Dataset → option string) (t : list Dataset)
    : list group_row :=
  sql.order_by_desc total_views
    (aggregate <$>
      sql.group_by column (sql.where_ (λ d, sql.isnot_null (column d)) t)).

Definition group_dict (label : string) (r : group_row) : gmap string json :=
  dict [
    (label, of_text (group_key r));
    ("dataset_count", JInt (dataset_count r));
    ("total_views", JInt (py.or_zero (total_views r)));
    ("total_downloads", JInt (py.or_zero (total_downloads r)))
  ].

Definition get_analytics_by_agency : M (list (gmap string json)) :=
  results ← query (λ t,
    sql.limit 15 (grouped dataset_information_agency t));
  mret (group_dict "agency" <$> results).

Definition get_analytics_by_category : M (list (gmap string json)) :=
  results ← query (λ t, Ok (grouped domain_category t));
  mret (group_dict "category" <$> results).

(** A row of the timeline query: the extracted year and the count. *)
Record year_row := {
  year : option Z;
  count : Z
}.

Definition count_year (g : option Z * list Dataset) : year_row :=
  {| year := g.1;
     count := sql.count ((λ d, Some (id d)) <$> g.2) |}.

Definition timeline (t : list Dataset) : list year_row :=
  sql.order_by_asc year
    (count_year <$>
      sql.group_by (λ d, sql.extract_year (publication_date d))
        (sql.where_ (λ d, sql.isnot_null (publication_date d)) t)).

(** [... for r in results if r.year and r.year >= 2000] *)
Definition timeline_dict (r : year_row) : option (gmap string json) :=
  match year r with
  | Some y =>
      if negb (y =? 0) && (2000 <=? y)
      then Some (dict [("year", JInt y); ("count", JInt (count r))])
      else None
  | None => None
  end.

Definition get_publication_timeline : M (list (gmap string json)) :=
  results ← query (λ t, Ok (timeline t));
  mret (omap timeline_dict results).

Definition engaged (t : list Dataset) : list Dataset :=
  sql.order_by_desc page_views_total
    (sql.where_ (λ d, sql.gt (page_views_total d) (Some 0)) t).

(** [len(r.name)] is evaluated first and raises on None. *)
Definition engagement_dict (r : Dataset) : result (gmap string json) :=
  match name r with
  | None => Err TypeError
  | Some nm =>
      Ok (dict [
        ("name", JStr (py.ellipsize 50 nm));
        ("weekly_views", JInt (py.or_zero (page_views_last_week r)));
        ("monthly_views", JInt (py.or_zero (page_views_last_month r)));
        ("total_views", JInt (py.or_zero (page_views_total r)));
        ("downloads", JInt (py.or_zero (download_count r)));
        ("category", of_text (domain_category r))
      ])
  end.

Definition get_engagement_metrics : M (list (gmap string json)) :=
  results ← query (λ t, sql.limit 20 (engaged t));
  lift (result_mapM engagement_dict results).

(** [d.description[:200] + "..." if d.description and len(d.description) >
    200 else d.description] *)
Definition short_description (v : option string) : json :=
  match v with
  | Some s =>
      if py.truthy s && (200 <? py.len s)
      then JStr (py.prefix 200 s +:+ "...")
      else JStr s
  | None => JNull
  end.

Definition search_row (d : Dataset) : gmap string json :=
  dict [
    ("id", JStr (id d));
    ("name", of_text (name d));
    ("description", short_description (description d));
    ("agency", of_text (dataset_information_agency d));
    ("category", of_text (domain_category d));
    ("page_views_total", of_int (page_views_total d));
    ("download_count", of_int (download_count d));
    ("publication_date", of_text (py.isoformat <$> publication_date d));
    ("link", of_text (link d))
  ].

Definition search_datasets (q category agency : string) (limit : Z)
    : M (list (gmap string json)) :=
  datasets ← query (λ t,
    let query0 := t in
    let query1 :=
      if py.truthy q
      then sql.where_ (λ d, sql.ilike (name d) ("%" +:+ q +:+ "%")) query0
      else query0 in
    let query2 :=
      if py.truthy category
      then sql.where_ (λ d, sql.eq_text (domain_category d) (Some category))
             query1
      else query1 in
    let query3 :=
      if py.truthy agency
      then sql.where_
             (λ d, sql.eq_text (dataset_information_agency d) (Some agency))
             query2
      else query2 in
    sql.limit limit (sql.order_by_desc page_views_total query3));
  mret (search_row <$> datasets).

(** [[c[0] for c in rows if c[0]]] *)
Definition truthy_text (c : option string) : option string :=
  match c with
  | Some s => if py.truthy s then Some s else None
  | None => None
  end.

Definition distinct_values (column : Dataset → option string)
    (t : list Dataset) : list (option string) :=
  sql.distinct (column <$> sql.where_ (λ d, sql.isnot_null (column d)) t).

Definition get_categories : M (list string) :=
  categories ← query (λ t, Ok (distinct_values domain_category t));
  mret (omap truthy_text categories).

Definition get_agencies : M (list string) :=
  agencies ← query (λ t, Ok (distinct_values dataset_information_agency t));
  mret (omap truthy_text agencies).

(** The routes of [app]. *)
Inductive request :=
  | Root
  | StatsOverview
  | TopViewed (limit : Z)
  | TopDownloaded (limit : Z)
  | ByAgency
  | ByCategory
  | PublicationTimeline
  | EngagementMetrics
  | Search (q category agency : string) (limit : Z)
  | Categories
  | Agencies.

Definition handler (req : request) : M response :=
  match req with
  | Root => Object <$> read_root
  | StatsOverview => Object <$> get_overview_stats
  | TopViewed limit => Objects <$> get_top_viewed_datasets limit
  | TopDownloaded limit => Objects <$> get_top_downloaded_datasets limit
  | ByAgency => Objects <$> get_analytics_by_agency
  | ByCategory => Objects <$> get_analytics_by_category
  | PublicationTimeline => Objects <$> get_publication_timeline
  | EngagementMetrics => Objects <$> get_engagement_metrics
  | Search q category agency limit =>
      Objects <$> search_datasets q category agency limit
  | Categories => Strings <$> get_categories
  | Agencies => Strings <$> get_agencies
  end.

(** A request served: every route but the root depends on [get_db]. *)
Definition serve (req : request) : M response :=
  match req with
  | Root => handler Root
  | _ => get_db (handler req)
  end.

End main.

Import database main.

(** * Vocabulary of the statements *)

(** A test row: only the columns the examples vary are filled. *)
Definition mk (i : string) (nm : option string) (views : option Z)
    (cat ag : option string) : Dataset :=
  {| id := i; name := nm; description := None; attribution := None;
     type := None; data_updated_at := None; page_views_last_week := None;
     page_views_last_month := None; page_views_total := views;
     download_count := None; publication_date := None;
     domain_category := cat; domain_tags := None;
     dataset_information_agency := ag; link := None |}.

(** The value a handler returns, and the field of a returned object. *)
Definition returned {A} (m : M A) (t : list Dataset) : result A := (m t).1.

Definition field (k : string) (d : gmap string json) : option json := d !! k.

(** A dict restricted to some of its keys. *)
Definition restrict (ks : list string) (d : gmap string json)
    : gmap string json :=
  filter (λ kv, kv.1 ∈ ks) d.

(** The keys the search rows and the top-viewed rows share. *)
Definition common_fields : list string :=
  ["id"; "name"; "agency"; "category"; "page_views_total"; "download_count"].

(** A computation that leaves the table as it found it, whatever it
    returns. *)
Definition read_only {A} (m : M A) : Prop := ∀ t, (m t).2 = t.

(** Total views with an absent value read as zero. *)
Definition views_or_zero (d : gmap string json) : Z :=
  match field "page_views_total" d with
  | Some (JInt v) => v
  | _ => 0
  end.

(** Two names, of 51 and of 50 characters. *)
Definition name_of_51 : string :=
  "abcdefghijklmnopqrstuvwxyzABCDEFGHIJKLMNOPQRSTUVWXY".

Definition name_of_50 : string :=
  "abcdefghijklmnopqrstuvwxyzABCDEFGHIJKLMNOPQRSTUVWX".

(** The records of a group, and its sums with an absent number read as
    zero. *)
Definition members (column : Dataset → option string) (k : string)
    (t : list Dataset) : list Dataset :=
  filter (λ d, column d = Some k) t.

Definition sum_or_zero (number : Dataset → option Z) (ds : list Dataset) : Z :=
  sql.total ((λ d, default 0 (number d)) <$> ds).

(** What a returned group row is expected to hold: a text key under
    [label], and three integers, the count at least 1. *)
Definition well_formed_group (label : string)
    (column : Dataset → option string) (t : list Dataset)
    (o : gmap string json) : Prop :=
  ∃ k n v w,
    field label o = Some (JStr k) ∧
    field "dataset_count" o = Some (JInt n) ∧
    field "total_views" o = Some (JInt v) ∧
    field "total_downloads" o = Some (JInt w) ∧
    1 ≤ n ∧
    n = Z.of_nat (length (members column k t)) ∧
    v = sum_or_zero page_views_total (members column k t) ∧
    w = sum_or_zero download_count (members column k t).

(** The calendar year a record was published in, if it has a publication
    date; the records published in a year; a timeline entry. *)
Definition publication_year (d : Dataset) : option Z :=
  match publication_date d with
  | Some ts => Some (ts_year ts)
  | None => None
  end.

Definition published_in (y : Z) (t : list Dataset) : list Dataset :=
  filter (λ d, publication_year d = Some y) t.

Definition timeline_entry (e : Z * Z) : gmap string json :=
  dict [("year", JInt e.1); ("count", JInt e.2)].

(** The (year, count) pair of a timeline row the handler keeps. *)
Definition kept_entry (r : year_row) : option (Z * Z) :=
  match year r with
  | Some y => if negb (y =? 0) && (2000 <=? y) then Some (y, count r) else None
  | None => None
  end.

(** The tables of the examples. *)
Definition long_names_table : list Dataset :=
  [mk "a" (Some name_of_50) (Some 7) None None;
   mk "b" (Some name_of_51) (Some 9) None None].

Definition empty_text_table : list Dataset :=
  [mk "a" None None (Some "") (Some "")].

Definition null_views_table : list Dataset :=
  [mk "a" (Some "A") (Some 5) None None;
   mk "b" (Some "B") None None None].

Definition null_sum_table : list Dataset :=
  [mk "a" None None None (Some "A");
   mk "b" None (Some 5) None (Some "B")].

(** The rows the engagement query hands to the handler. *)
Definition selected (t : list Dataset) : list Dataset := take 20 (engaged t).

(** An integer field of a returned object. *)
Definition int_field (k : string) (d : gmap string json) : Z :=
  match field k d with
  | Some (JInt v) => v
  | _ => 0
  end.

(** [a] may be listed before [b] by a descending order on a nullable
    number: [a] has no value, or both have one and [b]'s is not larger. *)
Definition not_below (number : Dataset → option Z) (a b : Dataset) : Prop :=
  number a = None ∨
  ∃ x y, number a = Some x ∧ number b = Some y ∧ y ≤ x.

(** The limits LIMIT accepts. *)
Definition limit_in_range (limit : Z) : Prop := 0 ≤ limit ≤ sql.bigint_max.

(** A record passes the filters of a search: each filter that is not empty
    holds of it. *)
Definition matches (q category agency : string) (d : Dataset) : Prop :=
  (q ≠ ""%string → sql.ilike (name d) ("%" +:+ q +:+ "%") = Some true) ∧
  (category ≠ ""%string → domain_category d = Some category) ∧
  (agency ≠ ""%string → dataset_information_agency d = Some agency).

#[export] Instance matches_dec q category agency d :
  Decision (matches q category agency d).
Proof. unfold matches. apply _. Defined.

(** A row with its download count set, and a table of three such rows. *)
Definition with_downloads (n : option Z) (d : Dataset) : Dataset :=
  {| id := id d; name := name d; description := description d;
     attribution := attribution d; type := type d;
     data_updated_at := data_updated_at d;
     page_views_last_week := page_views_last_week d;
     page_views_last_month := page_views_last_month d;
     page_views_total := page_views_total d;
     download_count := n; publication_date := publication_date d;
     domain_category := domain_category d; domain_tags := domain_tags d;
     dataset_information_agency := dataset_information_agency d;
     link := link d |}.

Definition downloads_table : list Dataset :=
  [with_downloads (Some 3) (mk "a" (Some "Trees") (Some 9) (Some "Parks") None);
   with_downloads (Some 8) (mk "b" (Some "Taxis") (Some 2) (Some "Roads") None);
   with_downloads (Some 5) (mk "c" (Some "Parks") (Some 4) (Some "Parks") None)].

(** A character that LIKE takes literally, and a text of such characters. *)
Definition plain (c : ascii) : Prop :=
  c ≠ "%"%char ∧ c ≠ "_"%char ∧ c ≠ "\"%char.

Definition plain_text (q : string) : Prop := Forall plain (sql.chars q).

(** [u] is a capital letter and [l] the small letter for it: A-Z, or the
    capital letters U+00C0-U+00DE but for U+00D7, and the character 32
    above. *)
Definition capital_of (u l : ascii) : Prop :=
  ((65 ≤ nat_of_ascii u ≤ 90)%nat ∨
   (192 ≤ nat_of_ascii u ≤ 222 ∧ nat_of_ascii u ≠ 215)%nat) ∧
  nat_of_ascii l = (nat_of_ascii u + 32)%nat.

(** Two characters that are the same letter, whatever their case. *)
Definition same_letter (a b : ascii) : Prop :=
  a = b ∨ capital_of a b ∨ capital_of b a.

(** [q] occurs in [s] when the case of the letters is ignored: some run of
    characters of [s] is [q] letter by letter. *)
Definition contains_ignoring_case (q s : string) : Prop :=
  ∃ before middle after,
    list_ascii_of_string s = before ++ middle ++ after ∧
    Forall2 same_letter (list_ascii_of_string q) middle.

(** A text of [k] underscores. *)
Definition underscores (k : nat) : string :=
  string_of_list_ascii (replicate k "_"%char).

(** A description of 201 characters, and a table with it, a short one and
    none. *)
Definition description_of_201 : string :=
  string_of_list_ascii (replicate 201 "x"%char).

Definition with_description (v : option string) (d : Dataset) : Dataset :=
  {| id := id d; name := name d; description := v;
     attribution := attribution d; type := type d;
     data_updated_at := data_updated_at d;
     page_views_last_week := page_views_last_week d;
     page_views_last_month := page_views_last_month d;
     page_views_total := page_views_total d;
     download_count := download_count d;
     publication_date := publication_date d;
     domain_category := domain_category d; domain_tags := domain_tags d;
     dataset_information_agency := dataset_information_agency d;
     link := link d |}.

Definition descriptions_table : list Dataset :=
  [with_description (Some description_of_201)
     (mk "a" (Some "Trees") (Some 9) None None);
   with_description (Some "short") (mk "b" (Some "Taxis") (Some 5) None None);
   with_description None (mk "c" None (Some 2) None None)].

(** How a description is shown: null stays null, a text of more than 200
    characters is cut to its first 200 followed by three dots, any other
    text is shown as it is. *)
Definition shown_description (v : option string) (j : json) : Prop :=
  match v with
  | None => j = JNull
  | Some s =>
      ∃ shown, j = JStr shown ∧
        ((200 < String.length s)%nat →
           shown = py.prefix 200 s +:+ "..." ∧
           String.length (py.prefix 200 s) = 200%nat ∧
           ∃ rest, s = py.prefix 200 s +:+ rest) ∧
        ((String.length s ≤ 200)%nat → shown = s)
  end.

(** A record counted by the timeline: published, in 2000 or later. *)
Definition published_since_2000 (d : Dataset) : bool :=
  match publication_year d with
  | Some y => 2000 <=? y
  | None => false
  end.

(** The values a Python [datetime] can hold. *)
Definition valid_timestamp (ts : timestamp) : Prop :=
  1 ≤ ts_year ts ≤ 9999 ∧ 1 ≤ ts_month ts ≤ 12 ∧ 1 ≤ ts_day ts ≤ 31 ∧
  0 ≤ ts_hour ts ≤ 23 ∧ 0 ≤ ts_minute ts ≤ 59 ∧ 0 ≤ ts_second ts ≤ 59 ∧
  0 ≤ ts_microsecond ts ≤ 999999.

Definition new_year_2021 : timestamp :=
  {| ts_year := 2021; ts_month := 1; ts_day := 1; ts_hour := 0;
     ts_minute := 0; ts_second := 0; ts_microsecond := 0 |}.



(** A row with only its publication date set, a date at midnight, and a
    table of five rows: published in 1999, in 2005 (twice), in 2010, and
    not dated. *)
Definition dated (i : string) (date : option timestamp) : Dataset :=
  {| id := i; name := None; description := None; attribution := None;
     type := None; data_updated_at := None; page_views_last_week := None;
     page_views_last_month := None; page_views_total := None;
     download_count := None; publication_date := date;
     domain_category := None; domain_tags := None;
     dataset_information_agency := None; link := None |}.

Definition midnight (y m d : Z) : timestamp :=
  {| ts_year := y; ts_month := m; ts_day := d; ts_hour := 0;
     ts_minute := 0; ts_second := 0; ts_microsecond := 0 |}.

Definition timeline_table : list Dataset :=
  [dated "a" (Some (midnight 1999 12 31));
   dated "b" (Some (midnight 2005 3 1));
   dated "c" None;
   dated "d" (Some (midnight 2010 7 4));
   dated "e" (Some (midnight 2005 11 30))].

(** A record with positive total views; [a] has at least the total views
    of [b], both having the number. *)
Definition has_views (d : Dataset) : bool :=
  match page_views_total d with
  | Some v => 0 <? v
  | None => false
  end.

Definition at_least_the_views (a b : Dataset) : Prop :=
  ∃ x y, page_views_total a = Some x ∧ page_views_total b = Some y ∧ y ≤ x.

(** Two tables for the engagement metrics: in the first the most viewed
    record has no name; in the second the records without a name have no
    positive total views. *)
Definition unnamed_leader_table : list Dataset :=
  [mk "a" None (Some 9) None None;
   mk "b" (Some "B") (Some 5) None None;
   mk "c" None (Some 0) None None].

Definition unnamed_unviewed_table : list Dataset :=
  [mk "b" (Some "B") (Some 5) None None;
   mk "c" None None None None;
   mk "e" None (Some 0) None None].

(** A table of names for the text search: one in capitals, one with an
    underscore, one with a small e acute (U+00E9), one short, and none. *)
Definition names_table : list Dataset :=
  [mk "a" (Some "Central PARKS") (Some 1) None None;
   mk "b" (Some "tree_map") (Some 2) None None;
   mk "c" None (Some 3) None None;
   mk "d" (Some ("caf" +:+ String "233"%char "")) (Some 4) None None;
   mk "e" (Some "ab") (Some 5) None None].

(** A capital E acute (U+00C9). *)
Definition capital_e_acute : string := String "201"%char "".

(** * Properties *)

(** ** ORDER BY *)

Section sort_rows_facts.
Context {A : Type} (leb : A → A → bool).

Lemma insert_row_Permutation x l : sql.insert_row leb x l ≡ₚ x :: l.
Proof.
  induction l as [|y l IH]; simpl; [done|].
  destruct (leb x y); [done|].
  rewrite IH. apply Permutation_swap.
Qed.

Lemma sort_rows_Permutation l : sql.sort_rows leb l ≡ₚ l.
Proof.
  induction l as [|x l IH]; simpl; [done|].
  by rewrite insert_row_Permutation, IH.
Qed.

Hypothesis leb_total : ∀ a b, leb a b = true ∨ leb b a = true.
Hypothesis leb_trans :
  ∀ a b c, leb a b = true → leb b c = true → leb a c = true.

Lemma insert_row_sorted x l :
  StronglySorted (λ a b, leb a b = true) l →
  StronglySorted (λ a b, leb a b = true) (sql.insert_row leb x l).
Proof.
  induction 1 as [|y l Hl IH Hy]; simpl.
  - repeat constructor.
  - destruct (leb x y) eqn:Hxy.
    + constructor; [by constructor|].
      constructor; [done|].
      eapply Forall_impl; [exact Hy|]. intros z Hz. by eapply leb_trans.
    + constructor; [done|].
      rewrite insert_row_Permutation. constructor; [|done].
      destruct (leb_total x y); [congruence|done].
Qed.

Lemma sort_rows_sorted l :
  StronglySorted (λ a b, leb a b = true) (sql.sort_rows leb l).
Proof.
  induction l as [|x l IH]; simpl; [constructor|].
  by apply insert_row_sorted.
Qed.
End sort_rows_facts.

Lemma desc_leb_total (a b : option Z) :
  sql.desc_leb a b = true ∨ sql.desc_leb b a = true.
Proof. destruct a, b; simpl; auto; lia. Qed.

Lemma desc_leb_trans (a b c : option Z) :
  sql.desc_leb a b = true → sql.desc_leb b c = true → sql.desc_leb a c = true.
Proof. destruct a, b, c; simpl; auto; try done; lia. Qed.

Lemma asc_leb_total (a b : option Z) :
  sql.asc_leb a b = true ∨ sql.asc_leb b a = true.
Proof. destruct a, b; simpl; auto; lia. Qed.

Lemma asc_leb_trans (a b c : option Z) :
  sql.asc_leb a b = true → sql.asc_leb b c = true → sql.asc_leb a c = true.
Proof. destruct a, b, c; simpl; auto; try done; lia. Qed.

Lemma order_by_desc_Permutation {A} (key : A → option Z) rows :
  sql.order_by_desc key rows ≡ₚ rows.
Proof. apply sort_rows_Permutation. Qed.

Lemma order_by_asc_Permutation {A} (key : A → option Z) rows :
  sql.order_by_asc key rows ≡ₚ rows.
Proof. apply sort_rows_Permutation. Qed.

(** Rows come out of ORDER BY ... DESC with NULL keys first and the other
    keys from larger to smaller. *)
Lemma order_by_desc_sorted {A} (key : A → option Z) rows :
  StronglySorted (λ a b, sql.desc_leb (key a) (key b) = true)
    (sql.order_by_desc key rows).
Proof.
  apply (sort_rows_sorted (λ a b, sql.desc_leb (key a) (key b))).
  - intros a b. apply desc_leb_total.
  - intros a b c. apply desc_leb_trans.
Qed.

Lemma order_by_asc_sorted {A} (key : A → option Z) rows :
  StronglySorted (λ a b, sql.asc_leb (key a) (key b) = true)
    (sql.order_by_asc key rows).
Proof.
  apply (sort_rows_sorted (λ a b, sql.asc_leb (key a) (key b))).
  - intros a b. apply asc_leb_total.
  - intros a b c. apply asc_leb_trans.
Qed.

(** ** LIMIT *)

Lemma limit_inv {A} (n : Z) (rows out : list A) :
  sql.limit n rows = Ok out → 0 ≤ n ∧ out = take (Z.to_nat n) rows.
Proof.
  unfold sql.limit. destruct (n <? 0) eqn:H1; simpl; [done|].
  destruct (sql.bigint_max <? n); [done|]. intros [= <-]. split; [lia|done].
Qed.

Lemma limit_length {A} (n : Z) (rows out : list A) :
  sql.limit n rows = Ok out → Z.of_nat (length out) ≤ n.
Proof.
  intros [Hn ->]%limit_inv. rewrite length_take. lia.
Qed.

(** ** The handlers only read *)

Create HintDb frame.

Lemma read_only_ret {A} (a : A) : read_only (mret a).
Proof. by intros t. Qed.

Lemma read_only_query {A} (select : list Dataset → result A) :
  read_only (query select).
Proof. by intros t. Qed.

Lemma read_only_lift {A} (r : result A) : read_only (lift r).
Proof. by intros t. Qed.

Lemma read_only_bind {A B} (m : M A) (f : A → M B) :
  read_only m → (∀ a, read_only (f a)) → read_only (m ≫= f).
Proof.
  intros Hm Hf t. unfold mbind, M_bind.
  specialize (Hm t). destruct (m t) as [[a|e] t']; simpl in *; subst.
  - apply Hf.
  - done.
Qed.

Lemma read_only_fmap {A B} (g : A → B) (m : M A) :
  read_only m → read_only (g <$> m).
Proof.
  intros Hm t. unfold fmap, M_fmap.
  specialize (Hm t). by destruct (m t) as [r t'].
Qed.

Lemma read_only_get_db {A} (m : M A) : read_only (get_db m).
Proof. intros t. unfold get_db. by destruct (m t). Qed.

#[local] Hint Resolve read_only_ret read_only_query read_only_lift
  read_only_fmap : frame.
#[local] Hint Extern 2 (read_only (_ ≫= _)) =>
  apply read_only_bind; [|intros ?] : frame.

Lemma read_only_handler (req : request) : read_only (handler req).
Proof.
  destruct req; simpl; apply read_only_fmap;
    unfold read_root, get_overview_stats, get_top_viewed_datasets,
      get_top_downloaded_datasets, get_analytics_by_agency,
      get_analytics_by_category, get_publication_timeline,
      get_engagement_metrics, search_datasets, get_categories, get_agencies;
    auto 10 with frame.
Qed.

(** C8. Serving a request leaves the table as it was: for every route and
    every table, the table after the handler has run equals the table
    before, whether the handler returned a value or raised, and the same
    holds for the request served through [get_db]. *)
Theorem every_route_leaves_table_unchanged (req : request) (t : list Dataset) :
  (handler req t).2 = t ∧ (serve req t).2 = t.
Proof.
  split; [apply read_only_handler|].
  destruct req; first [apply read_only_handler | apply read_only_get_db].
Qed.

(** ** Search without filters *)

Lemma restrict_search_row (d : Dataset) :
  restrict common_fields (search_row d) = restrict common_fields (top_row d).
Proof. vm_compute. reflexivity. Qed.

Lemma top_row_fields (d : Dataset) :
  restrict common_fields (top_row d) = top_row d.
Proof. vm_compute. reflexivity. Qed.

Lemma search_row_fields (d : Dataset) (k : string) :
  k ∈ common_fields → is_Some (search_row d !! k).
Proof.
  unfold common_fields. rewrite !elem_of_cons, elem_of_nil.
  intros [->|[->|[->|[->|[->|[->|[]]]]]]]; vm_compute; eauto.
Qed.

(** C2. With q, category and agency empty and limit 50, search returns the
    same records in the same order as top-viewed with limit 50, once the
    rows of both are restricted to the fields they share (id, name, agency,
    category, page_views_total, download_count); both requests succeed. *)
Theorem search_without_filters_is_top_viewed (t : list Dataset) :
  ∃ found top,
    returned (search_datasets "" "" "" 50) t = Ok found ∧
    returned (get_top_viewed_datasets 50) t = Ok top ∧
    restrict common_fields <$> found = restrict common_fields <$> top ∧
    restrict common_fields <$> top = top.
Proof.
  exists (search_row <$> take 50 (sql.order_by_desc page_views_total t)),
    (top_row <$> take 50 (sql.order_by_desc page_views_total t)).
  repeat split.
  - rewrite <- !list_fmap_compose. apply list_fmap_ext.
    intros _ d _. apply restrict_search_row.
  - rewrite <- list_fmap_compose. apply list_fmap_ext. intros _ d _. apply top_row_fields.
Qed.

(** ** Overview of an empty table *)

(** C3. On an empty table the overview request does not raise and returns
    total_datasets = 0, total_page_views = 0, total_downloads = 0 and
    avg_weekly_views = 0.0, each a number and none of them null. *)
Theorem overview_of_empty_table :
  returned get_overview_stats [] =
    Ok (dict [
      ("total_datasets", JInt 0);
      ("total_page_views", JInt 0);
      ("total_downloads", JInt 0);
      ("avg_weekly_views", JFloat 0)
    ]).
Proof. reflexivity. Qed.

(** ** The filter lists *)

Lemma NoDup_omap_inj {A B} (f : A → option B) (l : list A) :
  (∀ x y z, f x = Some z → f y = Some z → x = y) →
  NoDup l → NoDup (omap f l).
Proof.
  intros Hf. induction 1 as [|x l Hx Hl IH]; simpl; [constructor|].
  destruct (f x) as [z|] eqn:Hz; [|done].
  constructor; [|done].
  rewrite list_elem_of_omap. intros (y & Hy & Hfy).
  by rewrite (Hf _ _ _ Hz Hfy) in Hx.
Qed.

Lemma truthy_text_Some (c : option string) (s : string) :
  truthy_text c = Some s ↔ c = Some s ∧ s ≠ ""%string.
Proof.
  unfold truthy_text, py.truthy. destruct c as [s'|]; [|naive_solver].
  case_bool_decide; simpl; naive_solver.
Qed.

Lemma where_isnot_null_elem_of {B} (column : Dataset → option B)
    (t : list Dataset) (d : Dataset) :
  d ∈ sql.where_ (λ d, sql.isnot_null (column d)) t ↔
  d ∈ t ∧ column d ≠ None.
Proof.
  unfold sql.where_, sql.isnot_null. rewrite list_elem_of_filter.
  destruct (column d); naive_solver.
Qed.

Lemma where_isnot_null_filter {B} (column : Dataset → option B)
    (t : list Dataset) :
  sql.where_ (λ d, sql.isnot_null (column d)) t =
    filter (λ d, column d ≠ None) t.
Proof.
  unfold sql.where_, sql.isnot_null. induction t as [|d t IH]; [done|].
  rewrite !filter_cons, IH.
  destruct (column d); repeat case_decide; naive_solver.
Qed.

(** A filter that only holds where the column is set does not see the
    WHERE ... IS NOT NULL below it. *)
Lemma filter_where_isnot_null {B} (column : Dataset → option B)
    (P : Dataset → Prop) `{∀ d, Decision (P d)} (t : list Dataset) :
  (∀ d, P d → column d ≠ None) →
  filter P (sql.where_ (λ d, sql.isnot_null (column d)) t) = filter P t.
Proof.
  intros HP. rewrite where_isnot_null_filter.
  induction t as [|d t IH]; [done|].
  rewrite !filter_cons. destruct (decide (P d)) as [Hd|Hd].
  - rewrite decide_True by auto. by rewrite filter_cons_True, IH.
  - case_decide; [|done]. by rewrite filter_cons_False.
Qed.

Section distinct_values_facts.
Context (column : Dataset → option string).

Lemma distinct_values_elem_of (t : list Dataset) (v : option string) :
  v ∈ distinct_values column t ↔
  ∃ d, d ∈ t ∧ column d = v ∧ v ≠ None.
Proof.
  unfold distinct_values, sql.distinct.
  rewrite elem_of_remove_dups, list_elem_of_fmap.
  setoid_rewrite (where_isnot_null_elem_of column). naive_solver.
Qed.

Lemma distinct_values_NoDup (t : list Dataset) :
  NoDup (distinct_values column t).
Proof. apply NoDup_remove_dups. Qed.

Lemma truthy_values_elem_of (t : list Dataset) (s : string) :
  s ∈ omap truthy_text (distinct_values column t) ↔
  s ≠ ""%string ∧ ∃ d, d ∈ t ∧ column d = Some s.
Proof.
  rewrite list_elem_of_omap.
  setoid_rewrite distinct_values_elem_of.
  setoid_rewrite truthy_text_Some. naive_solver.
Qed.

Lemma truthy_values_NoDup (t : list Dataset) :
  NoDup (omap truthy_text (distinct_values column t)).
Proof.
  apply NoDup_omap_inj; [|apply distinct_values_NoDup].
  intros x y z [-> _]%truthy_text_Some [-> _]%truthy_text_Some. done.
Qed.
End distinct_values_facts.

(** C7, as the claim states it, fails: a stored category (and a stored
    agency) that is the empty string is not null, yet neither list returns
    it. *)
Lemma filters_drop_the_empty_string :
  (∃ d, d ∈ empty_text_table ∧ domain_category d = Some ""%string) ∧
  returned get_categories empty_text_table = Ok [] ∧
  (∃ d, d ∈ empty_text_table ∧
        dataset_information_agency d = Some ""%string) ∧
  returned get_agencies empty_text_table = Ok [].
Proof.
  repeat split; eexists; (split; [apply list_elem_of_here|done]).
Qed.

(** C7, amended. For every table, list-categories returns exactly the
    distinct category values that are neither null nor the empty string:
    each such stored value appears once, and nothing else appears; likewise
    list-agencies for agency values. *)
Theorem filters_list_distinct_non_empty_values (t : list Dataset) :
  ∃ categories agencies,
    returned get_categories t = Ok categories ∧
    returned get_agencies t = Ok agencies ∧
    NoDup categories ∧
    (∀ s, s ∈ categories ↔
          s ≠ ""%string ∧ ∃ d, d ∈ t ∧ domain_category d = Some s) ∧
    NoDup agencies ∧
    (∀ s, s ∈ agencies ↔
          s ≠ ""%string ∧ ∃ d, d ∈ t ∧ dataset_information_agency d = Some s).
Proof.
  eexists _, _. split; [reflexivity|]. split; [reflexivity|].
  split; [apply truthy_values_NoDup|].
  split; [apply truthy_values_elem_of|].
  split; [apply truthy_values_NoDup|apply truthy_values_elem_of].
Qed.

(** ** Engagement metrics *)

Lemma result_mapM_Ok {A B} (f : A → result B) (l : list A) (out : list B) :
  result_mapM f l = Ok out ↔ Forall2 (λ x y, f x = Ok y) l out.
Proof.
  revert out. induction l as [|x l IH]; intros out; simpl.
  - split; [intros [= <-]; constructor|by inversion 1].
  - destruct (f x) as [y|e] eqn:Hx.
    + destruct (result_mapM f l) as [ys|e] eqn:Hl; simpl.
      * split.
        -- intros [= <-]. constructor; [done|]. by apply IH.
        -- inversion 1 as [|? y' ? ys' Hy Hys]; subst.
           apply IH in Hys. congruence.
      * split; [done|]. inversion 1 as [|? y' ? ys' Hy Hys]; subst.
        by apply IH in Hys.
    + split; [done|]. inversion 1; congruence.
Qed.

Lemma result_mapM_is_ok {A B} (f : A → result B) (l : list A) :
  is_ok (result_mapM f l) = true ↔ Forall (λ x, is_ok (f x) = true) l.
Proof.
  induction l as [|x l IH]; simpl; [by split; [constructor|]|].
  rewrite Forall_cons, <- IH.
  destruct (f x); simpl; [|naive_solver].
  destruct (result_mapM f l); simpl; naive_solver.
Qed.

Lemma result_mapM_Err {A B} (f : A → result B) (l : list A) (e e' : error) :
  (∀ x e'', f x = Err e'' → e'' = e) → result_mapM f l = Err e' → e' = e.
Proof.
  intros Hf. induction l as [|x l IH]; simpl; [done|].
  destruct (f x) as [y|e1] eqn:Hx.
  - destruct (result_mapM f l); simpl; [done|].
    intros [= <-]. by apply IH.
  - intros [= <-]. by eapply Hf.
Qed.

(** The first [n] characters of a string that has at least [n]. *)
Lemma prefix_spec (n : nat) (s : string) :
  (n ≤ String.length s)%nat →
  String.length (py.prefix n s) = n ∧ ∃ rest, s = py.prefix n s +:+ rest.
Proof.
  unfold py.prefix. revert s. induction n as [|n IH]; intros s Hs.
  - destruct s; simpl; eauto.
  - destruct s as [|c s]; simpl in *; [lia|].
    destruct (IH s ltac:(lia)) as [Hlen [rest Hrest]].
    split; [by rewrite Hlen|]. exists rest.
    change (String c s = String c (substring 0 n s +:+ rest)). by f_equal.
Qed.

Lemma ellipsize_long (n : nat) (s : string) :
  (n < String.length s)%nat → py.ellipsize n s = py.prefix n s +:+ "...".
Proof.
  intros Hs. unfold py.ellipsize, py.len.
  destruct (Z.of_nat n <? Z.of_nat (String.length s)) eqn:H; [done|lia].
Qed.

Lemma ellipsize_short (n : nat) (s : string) :
  (String.length s ≤ n)%nat → py.ellipsize n s = s.
Proof.
  intros Hs. unfold py.ellipsize, py.len.
  destruct (Z.of_nat n <? Z.of_nat (String.length s)) eqn:H; [lia|done].
Qed.

Lemma engagement_query (t : list Dataset) :
  get_engagement_metrics t = (result_mapM engagement_dict (selected t), t).
Proof. reflexivity. Qed.

(** The rows the engagement query selects have positive total views, come
    from the table, and are ordered from more views to fewer. *)
Lemma engaged_rows (t : list Dataset) :
  Forall (λ d, d ∈ t ∧ ∃ v, page_views_total d = Some v ∧ 0 < v) (engaged t).
Proof.
  apply Forall_forall. intros d. unfold engaged.
  rewrite order_by_desc_Permutation. unfold sql.where_.
  rewrite list_elem_of_filter. intros [Hv Hd]. split; [done|].
  destruct (page_views_total d) as [v|]; simpl in Hv; [|done].
  exists v. split; [done|]. injection Hv as Hv. lia.
Qed.

(** C5. In the engagement-metrics output every selected record appears with
    its name: a name longer than 50 characters (one of exactly 51, for
    instance) is cut to its first 50 characters followed by three dots, and
    a name of at most 50 characters (one of exactly 50, for instance) is
    returned as it is. *)
Theorem engagement_names_cut_past_50 (t : list Dataset)
    (out : list (gmap string json)) :
  returned get_engagement_metrics t = Ok out →
  Forall2 (λ r o, ∃ nm shown,
      name r = Some nm ∧ field "name" o = Some (JStr shown) ∧
      ((50 < String.length nm)%nat →
         shown = py.prefix 50 nm +:+ "..." ∧
         String.length (py.prefix 50 nm) = 50%nat ∧
         ∃ rest, nm = py.prefix 50 nm +:+ rest) ∧
      ((String.length nm ≤ 50)%nat → shown = nm))
    (selected t) out.
Proof.
  unfold returned. rewrite engagement_query. simpl.
  intros H%result_mapM_Ok. eapply Forall2_impl; [exact H|].
  intros r o. unfold engagement_dict.
  destruct (name r) as [nm|]; [|done]. intros [= <-].
  exists nm, (py.ellipsize 50 nm). split; [done|]. split; [done|]. split.
  - intros Hlen. split; [by apply ellipsize_long|].
    apply prefix_spec. lia.
  - apply ellipsize_short.
Qed.

(** The theorem at a table with a name of 51 characters and one of 50. *)
Lemma engagement_names_cut_past_50_witness :
  String.length name_of_51 = 51%nat ∧
  String.length name_of_50 = 50%nat ∧
  ∃ out,
    returned get_engagement_metrics long_names_table = Ok out ∧
    field "name" <$> out =
      [Some (JStr (name_of_50 +:+ "...")); Some (JStr name_of_50)] ∧
    Forall2 (λ r o, ∃ nm shown,
        name r = Some nm ∧ field "name" o = Some (JStr shown) ∧
        ((50 < String.length nm)%nat →
           shown = py.prefix 50 nm +:+ "..." ∧
           String.length (py.prefix 50 nm) = 50%nat ∧
           ∃ rest, nm = py.prefix 50 nm +:+ rest) ∧
        ((String.length nm ≤ 50)%nat → shown = nm))
      (selected long_names_table) out.
Proof.
  split; [reflexivity|]. split; [reflexivity|].
  eexists. split; [reflexivity|]. split; [reflexivity|].
  apply (engagement_names_cut_past_50 long_names_table). reflexivity.
Defined.

Lemma gt_zero_has_views (d : Dataset) :
  sql.gt (page_views_total d) (Some 0) = Some true ↔ has_views d.
Proof.
  unfold has_views. destruct (page_views_total d) as [v|]; simpl; [|done].
  destruct (0 <? v); naive_solver.
Qed.

(** The engagement query selects the records with positive total views, up
    to 20 of them, and leaves out none with more total views than one it
    selects. *)
Lemma selected_are_the_most_viewed (t : list Dataset) :
  selected t ++ drop 20 (engaged t) ≡ₚ filter (λ d, has_views d) t ∧
  length (selected t) =
    (20 `min` length (filter (λ d, has_views d) t))%nat ∧
  ∀ a b, a ∈ selected t → b ∈ drop 20 (engaged t) → at_least_the_views a b.
Proof.
  assert (Hperm : engaged t ≡ₚ filter (λ d, has_views d) t).
  { unfold engaged. rewrite order_by_desc_Permutation. unfold sql.where_.
    by rewrite (list_filter_iff _ (λ d, has_views d))
      by apply gt_zero_has_views. }
  unfold selected. split; [by rewrite take_drop|].
  split; [by rewrite length_take, Hperm|].
  intros a b Ha Hb.
  pose proof (order_by_desc_sorted page_views_total
    (sql.where_ (λ d, sql.gt (page_views_total d) (Some 0)) t)) as Hs.
  fold (engaged t) in Hs. rewrite <- (take_drop 20 (engaged t)) in Hs.
  pose proof (StronglySorted_app_1_elem_of _ _ _ _ _ Hs Ha Hb) as Hab.
  pose proof (engaged_rows t) as Hrows. rewrite Forall_forall in Hrows.
  destruct (Hrows a) as (_ & x & Hx & _).
  { rewrite <- (take_drop 20 (engaged t)). apply elem_of_app. by left. }
  destruct (Hrows b) as (_ & y & Hy & _).
  { rewrite <- (take_drop 20 (engaged t)). apply elem_of_app. by right. }
  exists x, y. cbv beta in Hab. rewrite Hx, Hy in Hab. simpl in Hab.
  split; [done|]. split; [done|]. lia.
Qed.

(** C9. The engagement-metrics request selects the records with positive
    total views, the 20 with the most total views when there are more (no
    record left out has more than a selected one), and it returns a list
    exactly when every record it selects has a name that is not null; when
    some selected record has a null name the request raises a TypeError.
    The rows of a returned list are those of the selected records, in
    order. *)
Theorem engagement_succeeds_iff_names_present (t : list Dataset) :
  ∃ kept dropped,
    kept ++ dropped ≡ₚ filter (λ d, has_views d) t ∧
    length kept = (20 `min` length (filter (λ d, has_views d) t))%nat ∧
    (∀ a b, a ∈ kept → b ∈ dropped → at_least_the_views a b) ∧
    (is_ok (returned get_engagement_metrics t) = true ↔
       Forall (λ r, name r ≠ None) kept) ∧
    (Exists (λ r, name r = None) kept ↔
       returned get_engagement_metrics t = Err TypeError) ∧
    (∀ out, returned get_engagement_metrics t = Ok out →
       Forall2 (λ r o, int_field "total_views" o =
                         default 0 (page_views_total r)) kept out).
Proof.
  exists (selected t), (drop 20 (engaged t)).
  destruct (selected_are_the_most_viewed t) as (Hperm & Hlen & Hdom).
  split; [exact Hperm|]. split; [exact Hlen|]. split; [exact Hdom|].
  assert (Hviews : Forall (λ r, ∃ v, page_views_total r = Some v ∧ 0 < v)
                     (selected t)).
  { apply Forall_take. eapply Forall_impl; [apply engaged_rows|].
    naive_solver. }
  unfold returned. rewrite engagement_query. simpl.
  revert Hviews. generalize (selected t). intros rows Hviews.
  assert (Hok : is_ok (result_mapM engagement_dict rows) = true ↔
                Forall (λ r, name r ≠ None) rows).
  { rewrite result_mapM_is_ok. apply Forall_iff. intros r.
    unfold engagement_dict. destruct (name r); simpl; naive_solver. }
  split; [exact Hok|].
  assert (Herr : ∀ e, result_mapM engagement_dict rows = Err e →
                      e = TypeError).
  { intros e. apply result_mapM_Err. intros r e'.
    unfold engagement_dict. destruct (name r); congruence. }
  split.
  - destruct (result_mapM engagement_dict rows) as [out|e]; simpl in Hok.
    + split; [|done]. intros (r & Hr & Hnone)%Exists_exists. exfalso.
      destruct Hok as [Hall _]. specialize (Hall eq_refl).
      rewrite Forall_forall in Hall. by apply (Hall r).
    + split; [intros _; f_equal; by apply Herr|]. intros _.
      assert (Hnot : ¬ Forall (λ r, name r ≠ None) rows).
      { intros Hall. by apply Hok in Hall. }
      apply not_Forall_Exists in Hnot; [|apply _].
      eapply Exists_impl; [exact Hnot|]. intros r Hr. simpl in Hr.
      destruct (name r); [|done]. by destruct Hr.
  - intros out Hout%result_mapM_Ok. clear Hok Herr.
    induction Hout as [|r o rows out Hr Hout IH]; [constructor|].
    apply Forall_cons in Hviews as [(v & Hv & Hpos) Hviews].
    constructor; [|by apply IH].
    unfold engagement_dict in Hr. destruct (name r); [|done].
    injection Hr as <-.
    change (py.or_zero (page_views_total r) =
            default 0 (page_views_total r)).
    rewrite Hv. simpl. destruct (Z.eqb_spec v 0); lia.
Qed.

(** The theorem on two tables.  In the first the most viewed record has no
    name and the request raises; in the second the records without a name
    have no positive total views, are not selected, and the request
    returns the one row of the record that is. *)
Lemma engagement_succeeds_iff_names_present_witness :
  (∃ kept dropped,
     returned get_engagement_metrics unnamed_leader_table = Err TypeError ∧
     Exists (λ r, name r = None) kept ∧
     kept ++ dropped ≡ₚ filter (λ d, has_views d) unnamed_leader_table ∧
     length kept = 2%nat) ∧
  (∃ kept dropped out,
     returned get_engagement_metrics unnamed_unviewed_table = Ok out ∧
     int_field "total_views" <$> out = [5] ∧
     Forall (λ r, name r ≠ None) kept ∧
     kept ++ dropped ≡ₚ filter (λ d, has_views d) unnamed_unviewed_table ∧
     length kept = 1%nat).
Proof.
  split.
  - destruct (engagement_succeeds_iff_names_present unnamed_leader_table)
      as (kept & dropped & Hperm & Hlen & _ & _ & Herr & _).
    exists kept, dropped. split; [reflexivity|].
    split; [by apply Herr|]. split; [exact Hperm|exact Hlen].
  - destruct (engagement_succeeds_iff_names_present unnamed_unviewed_table)
      as (kept & dropped & Hperm & Hlen & _ & Hok & _ & _).
    eexists kept, dropped, _. split; [reflexivity|].
    split; [reflexivity|]. split; [by apply Hok|].
    split; [exact Hperm|exact Hlen].
Defined.

(** ** Aggregates *)

Lemma total_app (xs ys : list Z) :
  sql.total (xs ++ ys) = sql.total xs + sql.total ys.
Proof. unfold sql.total. induction xs as [|x xs IH]; simpl; lia. Qed.

Lemma total_non_null (vals : list (option Z)) :
  sql.total (sql.non_null vals) = sql.total (default 0 <$> vals).
Proof.
  unfold sql.non_null, sql.total.
  induction vals as [|[v|] vals IH]; csimpl; [done| |]; rewrite IH; lia.
Qed.

(** [int(x or 0)] of a SUM is the sum with NULLs read as zero. *)
Lemma or_zero_sum (vals : list (option Z)) :
  py.or_zero (sql.sum vals) = sql.total (default 0 <$> vals).
Proof.
  rewrite <- total_non_null. unfold sql.sum.
  destruct (sql.non_null vals) as [|v vs]; [done|].
  unfold py.or_zero. by destruct (Z.eqb_spec (sql.total (v :: vs)) 0).
Qed.

Lemma or_zero_sum_column (number : Dataset → option Z) (ds : list Dataset) :
  py.or_zero (sql.sum (number <$> ds)) = sum_or_zero number ds.
Proof.
  rewrite or_zero_sum. unfold sum_or_zero. by rewrite <- list_fmap_compose.
Qed.

(** COUNT over the primary key counts the rows. *)
Lemma count_id (ds : list Dataset) :
  sql.count ((λ d, Some (id d)) <$> ds) = Z.of_nat (length ds).
Proof.
  unfold sql.count, sql.non_null. f_equal.
  induction ds as [|d ds IH]; csimpl; [done|]. by f_equal.
Qed.

(** ** GROUP BY *)

Lemma group_by_elem_of `{EqDecision K} {A} (key : A → K) (rows : list A)
    (g : K * list A) :
  g ∈ sql.group_by key rows ↔
  (∃ r, r ∈ rows ∧ key r = g.1) ∧ g.2 = filter (λ r, key r = g.1) rows.
Proof.
  unfold sql.group_by, sql.distinct. rewrite list_elem_of_fmap.
  setoid_rewrite elem_of_remove_dups. setoid_rewrite list_elem_of_fmap.
  destruct g as [k rs]; simpl. split.
  - intros (k' & [= -> ->] & r & -> & Hr). eauto.
  - intros [(r & Hr & <-) ->]. eauto.
Qed.

Lemma group_by_keys_NoDup `{EqDecision K} {A} (key : A → K) (rows : list A) :
  NoDup (sql.group_by key rows).*1.
Proof.
  unfold sql.group_by, sql.distinct. rewrite <- list_fmap_compose.
  generalize (NoDup_remove_dups (key <$> rows)).
  generalize (remove_dups (key <$> rows)). intros ks.
  induction 1 as [|k ks Hk Hks IH]; csimpl; [constructor|].
  constructor; [|done].
  rewrite list_elem_of_fmap. by intros (k' & -> & Hk').
Qed.

(** The rows of a column's group, seen from the whole table. *)
Lemma members_where (column : Dataset → option string) (k : string)
    (t : list Dataset) :
  filter (λ d, column d = Some k)
    (sql.where_ (λ d, sql.isnot_null (column d)) t) = members column k t.
Proof.
  unfold members. apply filter_where_isnot_null. congruence.
Qed.

Lemma grouped_elem_of (column : Dataset → option string) (t : list Dataset)
    (r : group_row) :
  r ∈ grouped column t ↔
  ∃ k, (∃ d, d ∈ t ∧ column d = Some k) ∧
       r = aggregate (Some k, members column k t).
Proof.
  unfold grouped. rewrite order_by_desc_Permutation, list_elem_of_fmap.
  setoid_rewrite group_by_elem_of.
  setoid_rewrite where_isnot_null_elem_of. split.
  - intros ([k ds] & -> & (d & [Hd Hnn] & Hk) & Hds). simpl in *.
    destruct k as [k|]; [|congruence]. exists k. split; [eauto|].
    by rewrite Hds, members_where.
  - intros (k & (d & Hd & Hk) & ->). exists (Some k, members column k t).
    split; [done|]. simpl. split; [|by rewrite members_where].
    exists d. rewrite Hk. done.
Qed.

(** ** The grouped analytics *)

Lemma members_nonempty (column : Dataset → option string) (k : string)
    (t : list Dataset) (d : Dataset) :
  d ∈ t → column d = Some k → 1 ≤ Z.of_nat (length (members column k t)).
Proof.
  intros Hd Hk.
  assert (Hin : d ∈ members column k t) by by apply list_elem_of_filter.
  destruct (members column k t); [by apply elem_of_nil in Hin|simpl; lia].
Qed.

Lemma grouped_well_formed (label : string)
    (column : Dataset → option string) (t : list Dataset) :
  label = "agency"%string ∨ label = "category"%string →
  Forall (λ r, well_formed_group label column t (group_dict label r))
    (grouped column t).
Proof.
  intros Hlabel. apply Forall_forall. intros r Hr.
  apply grouped_elem_of in Hr as (k & (d & Hd & Hk) & ->).
  exists k, (Z.of_nat (length (members column k t))),
    (sum_or_zero page_views_total (members column k t)),
    (sum_or_zero download_count (members column k t)).
  unfold group_dict, aggregate; simpl.
  rewrite count_id, !or_zero_sum_column.
  repeat split; try (by destruct Hlabel as [-> | ->]).
  by eapply members_nonempty.
Qed.

(** What holds of the by-agency rows whatever their order: at most 15 of
    them, each the group of a distinct non-null agency, and their counts
    add up to no more than the table has rows. *)
Lemma by_agency_rows (t : list Dataset) :
  ∃ rows,
    returned get_analytics_by_agency t = Ok (group_dict "agency" <$> rows) ∧
    rows = take 15 (grouped dataset_information_agency t) ∧
    (length rows ≤ 15)%nat ∧
    NoDup (group_key <$> rows) ∧
    Forall (λ r, ∃ k, group_key r = Some k ∧
                      dataset_count r =
                        Z.of_nat (length (members dataset_information_agency
                                            k t))) rows.
Proof.
  eexists. split; [reflexivity|]. split; [reflexivity|].
  split; [rewrite length_take; lia|]. split.
  - rewrite fmap_take.
    eapply sublist_NoDup; [|apply sublist_take].
    unfold grouped. rewrite order_by_desc_Permutation.
    rewrite <- list_fmap_compose.
    apply (group_by_keys_NoDup dataset_information_agency).
  - apply Forall_take, Forall_forall. intros r Hr.
    apply grouped_elem_of in Hr as (k & _ & ->).
    exists k. split; [done|]. apply count_id.
Qed.

(** C10. Every group row that analytics-by-agency and analytics-by-category
    return has a grouping key that is a text and not null, a dataset_count
    of at least 1 (the number of records of the group), and total_views and
    total_downloads that are integers, never null: the sums over the group
    with absent values read as 0. *)
Theorem group_rows_are_well_formed (t : list Dataset) :
  ∃ by_agency by_category,
    returned get_analytics_by_agency t = Ok by_agency ∧
    returned get_analytics_by_category t = Ok by_category ∧
    Forall (well_formed_group "agency" dataset_information_agency t)
      by_agency ∧
    Forall (well_formed_group "category" domain_category t) by_category.
Proof.
  eexists _, _. split; [reflexivity|]. split; [reflexivity|]. split.
  - apply Forall_fmap, Forall_take. apply grouped_well_formed. by left.
  - apply Forall_fmap. apply grouped_well_formed. by right.
Qed.

(** ** Groups partition the rows *)

Lemma total_Permutation (xs ys : list Z) :
  xs ≡ₚ ys → sql.total xs = sql.total ys.
Proof. unfold sql.total. induction 1; simpl; lia. Qed.

Lemma filter_disjoint_length {A} (P Q : A → Prop)
    `{∀ x, Decision (P x)} `{∀ x, Decision (Q x)} (l : list A) :
  (∀ x, P x → Q x → False) →
  (length (filter P l) + length (filter Q l))%nat =
    length (filter (λ x, P x ∨ Q x) l).
Proof.
  intros HPQ. induction l as [|x l IH]; [done|].
  rewrite !filter_cons.
  destruct (decide (P x)) as [HP|HP], (decide (Q x)) as [HQ|HQ].
  - destruct (HPQ x HP HQ).
  - rewrite decide_True by auto. simpl. lia.
  - rewrite decide_True by auto. simpl. lia.
  - rewrite decide_False by tauto. done.
Qed.

Lemma filter_all {A} (P : A → Prop) `{∀ x, Decision (P x)} (l : list A) :
  Forall P l → filter P l = l.
Proof.
  induction 1 as [|x l Hx Hl IH]; [done|].
  by rewrite filter_cons, decide_True, IH.
Qed.

Lemma filter_iff {A} (P Q : A → Prop)
    `{∀ x, Decision (P x)} `{∀ x, Decision (Q x)} (l : list A) :
  (∀ x, P x ↔ Q x) → filter P l = filter Q l.
Proof.
  intros HPQ. induction l as [|x l IH]; [done|].
  rewrite !filter_cons, IH.
  destruct (decide (P x)) as [HP|HP], (decide (Q x)) as [HQ|HQ];
    naive_solver.
Qed.

Section partition.
Context `{EqDecision K} {A : Type} (key : A → K).

Lemma sizes_of_keys (ks : list K) (rows : list A) :
  NoDup ks →
  sql.total ((λ k, Z.of_nat (length (filter (λ r, key r = k) rows))) <$> ks)
  = Z.of_nat (length (filter (λ r, key r ∈ ks) rows)).
Proof.
  induction 1 as [|k ks Hk Hks IH]; csimpl.
  - rewrite (filter_iff _ (λ _, False)) by (intros; by rewrite elem_of_nil).
    induction rows as [|r rows IHr]; [done|].
    rewrite filter_cons_False; [exact IHr|tauto].
  - rewrite IH, <- Nat2Z.inj_add.
    rewrite filter_disjoint_length by (intros r -> Hr; done).
    do 2 f_equal. apply filter_iff. intros r. rewrite elem_of_cons. done.
Qed.

(** The sizes of the groups add up to the number of rows. *)
Lemma group_by_sizes (rows : list A) :
  sql.total ((λ g, Z.of_nat (length g.2)) <$> sql.group_by key rows)
  = Z.of_nat (length rows).
Proof.
  unfold sql.group_by, sql.distinct. rewrite <- list_fmap_compose.
  change (sql.total
    ((λ k, Z.of_nat (length (filter (λ r, key r = k) rows))) <$>
       remove_dups (key <$> rows)) = Z.of_nat (length rows)).
  rewrite sizes_of_keys by apply NoDup_remove_dups.
  rewrite filter_all; [done|]. apply Forall_forall. intros r Hr.
  rewrite elem_of_remove_dups. by apply list_elem_of_fmap_2.
Qed.
End partition.

(** ** Publication timeline *)

Lemma timeline_dict_kept (r : year_row) :
  timeline_dict r = timeline_entry <$> kept_entry r.
Proof.
  unfold timeline_dict, kept_entry. destruct (year r) as [y|]; [|done].
  by destruct (negb (y =? 0) && (2000 <=? y)).
Qed.

Lemma omap_timeline_dict (l : list year_row) :
  omap timeline_dict l = timeline_entry <$> omap kept_entry l.
Proof.
  induction l as [|r l IH]; [done|]. csimpl.
  rewrite timeline_dict_kept, IH. by destruct (kept_entry r).
Qed.

Lemma kept_entry_Some (r : year_row) (y c : Z) :
  kept_entry r = Some (y, c) ↔ year r = Some y ∧ count r = c ∧ 2000 ≤ y.
Proof.
  unfold kept_entry. destruct (year r) as [y'|]; [|naive_solver].
  destruct (Z.eqb_spec y' 0), (Z.leb_spec 2000 y'); simpl;
    split; try naive_solver; intros ([= ->] & _ & ?); lia.
Qed.

(** EXTRACT(year FROM publication_date) is the calendar year of the date. *)
Lemma extract_year_publication (d : Dataset) :
  sql.extract_year (publication_date d) = publication_year d.
Proof. unfold publication_year. by destruct (publication_date d). Qed.

Lemma published_in_where (y : Z) (t : list Dataset) :
  filter (λ d, sql.extract_year (publication_date d) = Some y)
    (sql.where_ (λ d, sql.isnot_null (publication_date d)) t)
  = published_in y t.
Proof.
  unfold published_in.
  rewrite (filter_iff _ (λ d, publication_year d = Some y))
    by (intros d; by rewrite extract_year_publication).
  apply filter_where_isnot_null.
  intros d. unfold publication_year. by destruct (publication_date d).
Qed.

Lemma timeline_elem_of (t : list Dataset) (r : year_row) :
  r ∈ timeline t ↔
  ∃ y, (∃ d, d ∈ t ∧ publication_year d = Some y) ∧
       r = count_year (Some y, published_in y t).
Proof.
  unfold timeline. rewrite order_by_asc_Permutation, list_elem_of_fmap.
  setoid_rewrite group_by_elem_of.
  setoid_rewrite (where_isnot_null_elem_of publication_date). split.
  - intros ([k ds] & -> & (d & [Hd Hnn] & Hk) & Hds). simpl in *.
    rewrite extract_year_publication in Hk. destruct k as [y|].
    + exists y. split; [eauto|]. by rewrite Hds, published_in_where.
    + unfold publication_year in Hk. by destruct (publication_date d).
  - intros (y & (d & Hd & Hy) & ->). exists (Some y, published_in y t).
    split; [done|]. simpl. split; [|by rewrite published_in_where].
    exists d. rewrite extract_year_publication. split; [|done].
    split; [done|].
    unfold publication_year in Hy. by destruct (publication_date d).
Qed.

Lemma timeline_years_NoDup (t : list Dataset) : NoDup (year <$> timeline t).
Proof.
  unfold timeline. rewrite order_by_asc_Permutation.
  rewrite <- list_fmap_compose.
  apply (group_by_keys_NoDup (λ d, sql.extract_year (publication_date d))).
Qed.

Lemma timeline_counts (t : list Dataset) :
  sql.total (count <$> timeline t) =
    Z.of_nat (length (filter (λ d, publication_date d ≠ None) t)).
Proof.
  unfold timeline.
  rewrite (total_Permutation _ _
    (fmap_Permutation count _ _ (order_by_asc_Permutation _ _))).
  rewrite <- list_fmap_compose, <- where_isnot_null_filter.
  rewrite <- (group_by_sizes (λ d, sql.extract_year (publication_date d))).
  f_equal. apply list_fmap_ext. intros _ g _. simpl. apply count_id.
Qed.

(** Dropping rows can only lower the sum of the counts. *)
Lemma kept_counts_le (l : list year_row) :
  Forall (λ r, 0 ≤ count r) l →
  sql.total (omap kept_entry l).*2 ≤ sql.total (count <$> l).
Proof.
  unfold sql.total. induction 1 as [|r l Hr Hl IH]; csimpl; [done|].
  destruct (kept_entry r) as [[y c]|] eqn:Hk; csimpl; [|lia].
  apply kept_entry_Some in Hk as (_ & <- & _). lia.
Qed.

(** Rows ascending by a year that never repeats keep strictly ascending
    years when some are dropped. *)
Lemma kept_years_ascending (l : list year_row) :
  StronglySorted (λ a b, sql.asc_leb (year a) (year b) = true) l →
  NoDup (year <$> l) →
  StronglySorted Z.lt (omap kept_entry l).*1.
Proof.
  induction 1 as [|r l Hl IH Hr]; csimpl; [constructor|].
  rewrite NoDup_cons. intros [Hnew Hnd].
  destruct (kept_entry r) as [[y c]|] eqn:Hk; csimpl; [|by apply IH].
  constructor; [by apply IH|].
  apply kept_entry_Some in Hk as (Hy & _ & _).
  apply Forall_forall. intros y'.
  rewrite list_elem_of_fmap. intros ([y'' c'] & -> & He). simpl.
  apply list_elem_of_omap in He as (r' & Hr' & Hk').
  apply kept_entry_Some in Hk' as (Hy' & _ & _).
  rewrite Forall_forall in Hr. specialize (Hr r' Hr').
  rewrite Hy, Hy' in Hr. simpl in Hr.
  assert (y ≠ y''); [|lia]. intros ->. apply Hnew.
  rewrite Hy, <- Hy'. by apply list_elem_of_fmap_2.
Qed.

(** C4. For every table the publication timeline returns one entry for each
    distinct year, 2000 or later, of a non-null publication_date, with the
    number of records of that year as its count (and no entry for any other
    year); the entries are in strictly ascending order of year, so no year
    occurs twice; no returned year is below 2000; and the counts add up to
    at most the number of records whose publication_date is not null. *)
Theorem publication_timeline_by_year (t : list Dataset) :
  ∃ entries : list (Z * Z),
    returned get_publication_timeline t = Ok (timeline_entry <$> entries) ∧
    StronglySorted Z.lt entries.*1 ∧
    (∀ y c, (y, c) ∈ entries ↔
            2000 ≤ y ∧ 1 ≤ c ∧ c = Z.of_nat (length (published_in y t))) ∧
    Forall (λ e, 2000 ≤ e.1) entries ∧
    sql.total entries.*2 ≤
      Z.of_nat (length (filter (λ d, publication_date d ≠ None) t)).
Proof.
  exists (omap kept_entry (timeline t)).
  assert (Hmem : ∀ y c, (y, c) ∈ omap kept_entry (timeline t) ↔
    2000 ≤ y ∧ 1 ≤ c ∧ c = Z.of_nat (length (published_in y t))).
  { intros y c. rewrite list_elem_of_omap.
    setoid_rewrite kept_entry_Some. setoid_rewrite timeline_elem_of. split.
    - intros (r & (y' & (d & Hd & Hy') & ->) & Hy & Hc & H2000).
      simpl in *. injection Hy as ->. rewrite count_id in Hc. subst c.
      repeat split; [done|].
      assert (Hin : d ∈ published_in y t) by by apply list_elem_of_filter.
      destruct (published_in y t); [by apply elem_of_nil in Hin|simpl; lia].
    - intros (H2000 & Hc & ->).
      destruct (published_in y t) as [|d ds] eqn:Hp; [simpl in Hc; lia|].
      assert (Hin : d ∈ published_in y t) by (rewrite Hp; left).
      apply list_elem_of_filter in Hin as [Hy Hd].
      exists (count_year (Some y, published_in y t)).
      split; [eauto|]. simpl. rewrite count_id, Hp. done. }
  split; [|split; [|split; [exact Hmem|split]]].
  - unfold returned, get_publication_timeline. simpl.
    by rewrite omap_timeline_dict.
  - apply kept_years_ascending;
      [apply order_by_asc_sorted|apply timeline_years_NoDup].
  - apply Forall_forall. intros [y c] He. apply Hmem in He. simpl. lia.
  - rewrite <- timeline_counts. apply kept_counts_le.
    apply Forall_forall. intros r (y & _ & ->)%timeline_elem_of.
    simpl. rewrite count_id. lia.
Qed.

Lemma timeline_entries_inj (l1 l2 : list (Z * Z)) :
  timeline_entry <$> l1 = timeline_entry <$> l2 → l1 = l2.
Proof.
  intros H.
  pose proof (f_equal (fmap (int_field "year")) H) as Hy.
  pose proof (f_equal (fmap (int_field "count")) H) as Hc.
  rewrite <- !list_fmap_compose in Hy, Hc.
  change (l1.*1 = l2.*1) in Hy. change (l1.*2 = l2.*2) in Hc.
  clear H. revert l2 Hy Hc.
  induction l1 as [|[y c] l1 IH]; intros [|[y' c'] l2] Hy Hc; try done.
  injection Hy as -> Hy. injection Hc as -> Hc. f_equal. by apply IH.
Qed.

(** The theorem on five records published in 1999, 2005 (in March and in
    November), 2010, and one without a date: the timeline has 2005 with
    count 2, then 2010 with count 1. *)
Lemma publication_timeline_by_year_witness :
  ∃ entries : list (Z * Z),
    entries = [(2005, 2); (2010, 1)] ∧
    returned get_publication_timeline timeline_table
      = Ok (timeline_entry <$> entries) ∧
    StronglySorted Z.lt entries.*1 ∧
    (∀ y c, (y, c) ∈ entries ↔
            2000 ≤ y ∧ 1 ≤ c ∧
            c = Z.of_nat (length (published_in y timeline_table))) ∧
    Forall (λ e, 2000 ≤ e.1) entries ∧
    sql.total entries.*2 ≤
      Z.of_nat (length (filter (λ d, publication_date d ≠ None)
                          timeline_table)).
Proof.
  destruct (publication_timeline_by_year timeline_table)
    as (entries & Hret & H).
  exists entries. split; [|by split].
  assert (Hrun : returned get_publication_timeline timeline_table
                 = Ok (timeline_entry <$> [(2005, 2); (2010, 1)]))
    by reflexivity.
  rewrite Hrun in Hret. injection Hret as Hret.
  symmetry. by apply timeline_entries_inj.
Defined.

(** ** Top viewed *)

Lemma views_or_zero_top_row (d : Dataset) :
  views_or_zero (top_row d) = default 0 (page_views_total d).
Proof.
  unfold views_or_zero.
  change (field "page_views_total" (top_row d))
    with (Some (of_int (page_views_total d))).
  by destruct (page_views_total d).
Qed.

(** What top-viewed returns when it returns: at most [limit] rows, the first
    rows of the table ordered by total views descending, NULLs first. *)
Lemma top_viewed_rows (limit : Z) (t : list Dataset)
    (out : list (gmap string json)) :
  returned (get_top_viewed_datasets limit) t = Ok out →
  ∃ rows,
    out = top_row <$> rows ∧
    rows = take (Z.to_nat limit) (sql.order_by_desc page_views_total t) ∧
    Z.of_nat (length out) ≤ limit ∧
    StronglySorted
      (λ a b, sql.desc_leb (page_views_total a) (page_views_total b) = true)
      rows.
Proof.
  unfold returned, get_top_viewed_datasets, mbind, M_bind, query. simpl.
  destruct (sql.limit limit _) as [rows|e] eqn:Hl; simpl; [|done].
  intros [= <-]. exists rows. split; [done|].
  pose proof (limit_length _ _ _ Hl) as Hlen.
  apply limit_inv in Hl as [Hn ->]. split; [done|].
  split; [by rewrite length_fmap|].
  eapply StronglySorted_app_1_l. rewrite take_drop.
  apply order_by_desc_sorted.
Qed.

(** On a table where every record has its total views, the rows come out
    with total views never increasing. *)
Lemma top_viewed_without_nulls (limit : Z) (t : list Dataset)
    (out : list (gmap string json)) :
  Forall (λ d, page_views_total d ≠ None) t →
  returned (get_top_viewed_datasets limit) t = Ok out →
  StronglySorted (λ a b, views_or_zero b ≤ views_or_zero a) out.
Proof.
  intros Hnn (rows & -> & Hrows & _ & Hsorted)%top_viewed_rows.
  assert (Hall : Forall (λ d, page_views_total d ≠ None) rows).
  { subst rows. apply Forall_take.
    by rewrite order_by_desc_Permutation. }
  clear Hrows. induction Hsorted as [|d rows Hs IH Hd]; csimpl; [constructor|].
  apply Forall_cons in Hall as [Hv Hall].
  constructor; [by apply IH|].
  apply Forall_fmap, Forall_forall. intros d' Hd'. simpl.
  rewrite !views_or_zero_top_row.
  rewrite Forall_forall in Hd, Hall.
  specialize (Hd d' Hd'). specialize (Hall d' Hd').
  destruct (page_views_total d), (page_views_total d'); simpl in *;
    try done; lia.
Qed.

(** C1, at a table with one record of 5 total views and one whose total
    views are null: top-viewed with limit 2 lists the record without views
    first, so the listed total views (null read as no views) go up from 0
    to 5 instead of never increasing. *)
Theorem top_viewed_lists_null_views_first :
  ∃ out,
    returned (get_top_viewed_datasets 2) null_views_table = Ok out ∧
    field "id" <$> out = [Some (JStr "b"); Some (JStr "a")] ∧
    field "page_views_total" <$> out = [Some JNull; Some (JInt 5)] ∧
    views_or_zero <$> out = [0; 5] ∧
    ¬ StronglySorted (λ a b, views_or_zero b ≤ views_or_zero a) out.
Proof.
  eexists. split; [reflexivity|].
  split; [reflexivity|]. split; [reflexivity|]. split; [reflexivity|].
  intros Hs. apply StronglySorted_inv in Hs as [_ Hs].
  apply Forall_cons in Hs as [Hs _].
  rewrite !views_or_zero_top_row in Hs. simpl in Hs. lia.
Qed.

(** ** Analytics by agency *)

Lemma total_take_le (n : nat) (xs : list Z) :
  Forall (λ x, 0 ≤ x) xs → sql.total (take n xs) ≤ sql.total xs.
Proof.
  intros Hxs. rewrite <- (take_drop n xs) at 2. rewrite total_app.
  assert (0 ≤ sql.total (drop n xs)); [|lia].
  apply (Forall_drop _ n) in Hxs. unfold sql.total.
  induction Hxs; simpl; lia.
Qed.

(** The counts of the returned groups add up to at most the number of
    records, whatever the order of the groups. *)
Lemma by_agency_counts_le (t : list Dataset) :
  sql.total
    (dataset_count <$> take 15 (grouped dataset_information_agency t))
  ≤ Z.of_nat (length t).
Proof.
  rewrite fmap_take.
  etrans; [apply total_take_le|].
  - apply Forall_fmap, Forall_forall. intros r (k & _ & ->)%grouped_elem_of.
    simpl. rewrite count_id. lia.
  - unfold grouped.
    rewrite (total_Permutation _ _
      (fmap_Permutation dataset_count _ _ (order_by_desc_Permutation _ _))).
    rewrite <- list_fmap_compose.
    etrans; [|apply inj_le, (length_filter
      (λ d, sql.isnot_null (dataset_information_agency d) = Some true) t)].
    rewrite <- (group_by_sizes dataset_information_agency). apply Z.eq_le_incl.
    f_equal. apply list_fmap_ext. intros _ g _. simpl. apply count_id.
Qed.

(** C6, at a table with agency A, whose only record has null total views,
    and agency B with 5 total views: the NULL sum of A sorts first and is
    returned as 0, so the returned total_views go up from 0 to 5 instead of
    descending. *)
Theorem by_agency_lists_null_sums_first :
  ∃ out,
    returned get_analytics_by_agency null_sum_table = Ok out ∧
    field "agency" <$> out = [Some (JStr "A"); Some (JStr "B")] ∧
    field "dataset_count" <$> out = [Some (JInt 1); Some (JInt 1)] ∧
    field "total_views" <$> out = [Some (JInt 0); Some (JInt 5)].
Proof.
  eexists. split; [reflexivity|].
  split; [reflexivity|]. split; reflexivity.
Qed.

(** * Further properties of the handlers *)

(** ** The two top lists *)

Lemma limit_Err {A} (n : Z) (rows : list A) (e : error) :
  sql.limit n rows = Err e → e = DataError ∧ ¬ limit_in_range n.
Proof.
  unfold sql.limit, limit_in_range.
  destruct (n <? 0) eqn:H1; simpl.
  - intros [= <-]. split; [done|lia].
  - destruct (sql.bigint_max <? n) eqn:H2; [|done].
    intros [= <-]. split; [done|lia].
Qed.

Lemma limit_out_of_range {A} (n : Z) (rows : list A) :
  ¬ limit_in_range n → sql.limit n rows = Err DataError.
Proof.
  unfold sql.limit, limit_in_range. intros Hn.
  destruct (n <? 0) eqn:H1; [done|].
  destruct (sql.bigint_max <? n) eqn:H2; [done|]. lia.
Qed.

Lemma limit_in_range_Ok {A} (n : Z) (rows : list A) :
  limit_in_range n → sql.limit n rows = Ok (take (Z.to_nat n) rows).
Proof.
  unfold sql.limit, limit_in_range. intros Hn.
  destruct (n <? 0) eqn:H1; [lia|].
  destruct (sql.bigint_max <? n) eqn:H2; [lia|done].
Qed.

Lemma limit_is_ok {A} (n : Z) (rows : list A) :
  is_ok (sql.limit n rows) = true ↔ limit_in_range n.
Proof.
  split.
  - destruct (sql.limit n rows) as [out|e] eqn:H; [|done]. intros _.
    unfold sql.limit in H. unfold limit_in_range.
    destruct (n <? 0) eqn:H1; [done|].
    destruct (sql.bigint_max <? n) eqn:H2; [done|]. lia.
  - intros Hn. by rewrite limit_in_range_Ok.
Qed.

Lemma top_viewed_query (limit : Z) (t : list Dataset) :
  returned (get_top_viewed_datasets limit) t =
    result_map (fmap top_row)
      (sql.limit limit (sql.order_by_desc page_views_total t)).
Proof.
  unfold returned, get_top_viewed_datasets, mbind, M_bind, query.
  by destruct (sql.limit limit _).
Qed.

Lemma top_downloaded_query (limit : Z) (t : list Dataset) :
  returned (get_top_downloaded_datasets limit) t =
    result_map (fmap top_row)
      (sql.limit limit (sql.order_by_desc download_count t)).
Proof.
  unfold returned, get_top_downloaded_datasets, mbind, M_bind, query.
  by destruct (sql.limit limit _).
Qed.

Lemma result_map_is_ok {A B} (f : A → B) (r : result A) :
  is_ok (result_map f r) = is_ok r.
Proof. by destruct r. Qed.

Lemma eq_text_true (v : option string) (s : string) :
  sql.eq_text v (Some s) = Some true ↔ v = Some s.
Proof.
  destruct v as [s'|]; simpl; [|done].
  case_bool_decide; naive_solver.
Qed.

Lemma truthy_true (s : string) : py.truthy s = true ↔ s ≠ ""%string.
Proof. unfold py.truthy. case_bool_decide; naive_solver. Qed.

(** A filter applied only when its parameter is not empty. *)
Lemma optional_where (s : string) (p : Dataset → option bool)
    (rows : list Dataset) :
  (if py.truthy s then sql.where_ p rows else rows) =
    filter (λ d, s ≠ ""%string → p d = Some true) rows.
Proof.
  destruct (py.truthy s) eqn:Hs.
  - apply truthy_true in Hs. unfold sql.where_. apply filter_iff.
    naive_solver.
  - symmetry. apply filter_all, Forall_forall. intros d _ Hne.
    apply truthy_true in Hne. congruence.
Qed.

(** The rows a search orders and cuts are the records that pass its
    filters. *)
Lemma search_query (q category agency : string) (limit : Z)
    (t : list Dataset) :
  returned (search_datasets q category agency limit) t =
    result_map (fmap search_row)
      (sql.limit limit
         (sql.order_by_desc page_views_total
            (filter (matches q category agency) t))).
Proof.
  unfold returned, search_datasets, mbind, M_bind, query. cbv zeta.
  rewrite !optional_where, !list_filter_filter.
  rewrite (filter_iff _ (matches q category agency)).
  - by destruct (sql.limit limit _).
  - intros d. unfold matches. rewrite !eq_text_true. tauto.
Qed.

(** X1. Top-viewed and top-downloaded take no parameter but the limit, and
    they succeed exactly when it is between 0 and 9223372036854775807, the
    largest bigint, whatever the table holds; with any other limit (-1, for
    instance) the database rejects the statement and the request fails. *)
Theorem top_lists_succeed_iff_limit_is_a_count (limit : Z)
    (t : list Dataset) :
  (is_ok (returned (get_top_viewed_datasets limit) t) = true ↔
     0 ≤ limit ≤ 9223372036854775807) ∧
  (is_ok (returned (get_top_downloaded_datasets limit) t) = true ↔
     0 ≤ limit ≤ 9223372036854775807) ∧
  (limit < 0 ∨ 9223372036854775807 < limit →
     returned (get_top_viewed_datasets limit) t = Err DataError ∧
     returned (get_top_downloaded_datasets limit) t = Err DataError).
Proof.
  rewrite top_viewed_query, top_downloaded_query.
  rewrite !result_map_is_ok, !limit_is_ok.
  split; [done|]. split; [done|]. intros Hn.
  assert (Hout : ¬ limit_in_range limit).
  { unfold limit_in_range, sql.bigint_max. lia. }
  by rewrite !(limit_out_of_range _ _ Hout).
Qed.

(** The theorem at the limits -1 and 2 on a table of three records. *)
Lemma top_lists_succeed_iff_limit_is_a_count_witness :
  returned (get_top_viewed_datasets (-1)) downloads_table = Err DataError ∧
  returned (get_top_downloaded_datasets (-1)) downloads_table
    = Err DataError ∧
  is_ok (returned (get_top_viewed_datasets 2) downloads_table) = true ∧
  is_ok (returned (get_top_downloaded_datasets 2) downloads_table) = true.
Proof.
  destruct (top_lists_succeed_iff_limit_is_a_count (-1) downloads_table)
    as (_ & _ & Herr).
  destruct (top_lists_succeed_iff_limit_is_a_count 2 downloads_table)
    as (Hviewed & Hdownloaded & _).
  destruct Herr as [Hv Hd]; [lia|].
  split; [exact Hv|]. split; [exact Hd|].
  split; [apply Hviewed; lia|apply Hdownloaded; lia].
Defined.

Lemma desc_leb_not_below (number : Dataset → option Z) (a b : Dataset) :
  sql.desc_leb (number a) (number b) = true ↔ not_below number a b.
Proof.
  unfold not_below. destruct (number a) as [x|], (number b) as [y|]; simpl.
  - rewrite Z.leb_le. naive_solver.
  - naive_solver.
  - naive_solver.
  - naive_solver.
Qed.

(** ORDER BY ... DESC LIMIT n splits the rows into those kept and those
    dropped, and no dropped row could have been listed before a kept one. *)
Lemma take_order_by_desc (number : Dataset → option Z) (n : nat)
    (t : list Dataset) :
  take n (sql.order_by_desc number t) ++ drop n (sql.order_by_desc number t)
    ≡ₚ t ∧
  ∀ a b, a ∈ take n (sql.order_by_desc number t) →
         b ∈ drop n (sql.order_by_desc number t) →
         not_below number a b.
Proof.
  split; [by rewrite take_drop, order_by_desc_Permutation|].
  intros a b Ha Hb. apply desc_leb_not_below.
  pose proof (order_by_desc_sorted number t) as Hs.
  rewrite <- (take_drop n (sql.order_by_desc number t)) in Hs.
  by apply (StronglySorted_app_1_elem_of _ _ _ _ _ Hs).
Qed.

(** X2. With a limit in range, top-viewed and top-downloaded each return
    as many rows as the limit allows: the smaller of the limit and the
    number of records. *)
Theorem top_lists_length (limit : Z) (t : list Dataset) :
  limit_in_range limit →
  ∃ viewed downloaded,
    returned (get_top_viewed_datasets limit) t = Ok viewed ∧
    returned (get_top_downloaded_datasets limit) t = Ok downloaded ∧
    length viewed = (Z.to_nat limit `min` length t)%nat ∧
    length downloaded = (Z.to_nat limit `min` length t)%nat.
Proof.
  intros Hn. rewrite top_viewed_query, top_downloaded_query.
  rewrite !limit_in_range_Ok by done. simpl.
  eexists _, _. split; [done|]. split; [done|].
  by rewrite !length_fmap, !length_take, !order_by_desc_Permutation.
Qed.

(** The theorem at a limit of 2 on a table of 3 records. *)
Lemma top_lists_length_witness :
  ∃ viewed downloaded,
    returned (get_top_viewed_datasets 2) downloads_table = Ok viewed ∧
    returned (get_top_downloaded_datasets 2) downloads_table = Ok downloaded ∧
    length viewed = 2%nat ∧ length downloaded = 2%nat.
Proof.
  apply (top_lists_length 2 downloads_table).
  unfold limit_in_range, sql.bigint_max. lia.
Defined.

(** X3. The rows top-downloaded returns are the table's records up to the
    limit, each once, and none left out could have been listed before one
    that is returned: a returned record either has no download count (NULLs
    come first) or has at least as many downloads as every record left
    out, which then all have a count. *)
Theorem top_downloaded_keeps_the_most_downloaded (limit : Z)
    (t : list Dataset) (out : list (gmap string json)) :
  returned (get_top_downloaded_datasets limit) t = Ok out →
  ∃ kept dropped,
    out = top_row <$> kept ∧
    kept ++ dropped ≡ₚ t ∧
    ∀ a b, a ∈ kept → b ∈ dropped → not_below download_count a b.
Proof.
  rewrite top_downloaded_query.
  destruct (sql.limit limit _) as [rows|e] eqn:Hl; simpl; [|done].
  intros [= <-]. apply limit_inv in Hl as [_ ->].
  eexists _, _. split; [done|]. apply take_order_by_desc.
Qed.

(** The theorem at a limit of 2: "b" (8 downloads) and "c" (5) are kept,
    "a" (3) is left out. *)
Lemma top_downloaded_keeps_the_most_downloaded_witness :
  ∃ out kept dropped,
    field "id" <$> out = [Some (JStr "b"); Some (JStr "c")] ∧
    out = top_row <$> kept ∧
    kept ++ dropped ≡ₚ downloads_table ∧
    ∀ a b, a ∈ kept → b ∈ dropped → not_below download_count a b.
Proof.
  destruct (top_downloaded_keeps_the_most_downloaded 2 downloads_table
              _ eq_refl) as (kept & dropped & H).
  eexists _, kept, dropped. split; [|exact H]. reflexivity.
Defined.

Lemma int_field_download_count (d : Dataset) :
  int_field "download_count" (top_row d) = default 0 (download_count d).
Proof.
  unfold int_field.
  change (field "download_count" (top_row d))
    with (Some (of_int (download_count d))).
  by destruct (download_count d).
Qed.

(** Rows in descending order of a number none of them lacks show that
    number never increasing. *)
Lemma listing_without_nulls (number : Dataset → option Z) (k : string)
    (rows : list Dataset) :
  (∀ d, int_field k (top_row d) = default 0 (number d)) →
  Forall (λ d, number d ≠ None) rows →
  StronglySorted (λ a b, sql.desc_leb (number a) (number b) = true) rows →
  StronglySorted (λ a b, int_field k b ≤ int_field k a) (top_row <$> rows).
Proof.
  intros Hk Hall Hs.
  induction Hs as [|d rows Hs IH Hd]; csimpl; [constructor|].
  apply Forall_cons in Hall as [Hv Hall].
  constructor; [by apply IH|].
  apply Forall_fmap, Forall_forall. intros d' Hd'. simpl. rewrite !Hk.
  rewrite Forall_forall in Hd, Hall.
  specialize (Hd d' Hd'). specialize (Hall d' Hd').
  destruct (number d), (number d'); simpl in *; try done; lia.
Qed.

(** X4. On a table where every record has a download count, top-downloaded
    lists its rows with download_count never increasing from one row to a
    later one. *)
Theorem top_downloaded_without_nulls (limit : Z) (t : list Dataset)
    (out : list (gmap string json)) :
  Forall (λ d, download_count d ≠ None) t →
  returned (get_top_downloaded_datasets limit) t = Ok out →
  StronglySorted
    (λ a b, int_field "download_count" b ≤ int_field "download_count" a) out.
Proof.
  intros Hnn. rewrite top_downloaded_query.
  destruct (sql.limit limit _) as [rows|e] eqn:Hl; simpl; [|done].
  intros [= <-]. apply limit_inv in Hl as [_ ->].
  apply (listing_without_nulls download_count).
  - apply int_field_download_count.
  - apply Forall_take. by rewrite order_by_desc_Permutation.
  - eapply StronglySorted_app_1_l. rewrite take_drop.
    apply order_by_desc_sorted.
Qed.

(** The theorem on the three records with 3, 8 and 5 downloads. *)
Lemma top_downloaded_without_nulls_witness :
  ∃ out,
    int_field "download_count" <$> out = [8; 5; 3] ∧
    StronglySorted
      (λ a b, int_field "download_count" b ≤ int_field "download_count" a)
      out.
Proof.
  assert (Hall : Forall (λ d, download_count d ≠ None) downloads_table)
    by (repeat constructor; discriminate).
  eexists. split;
    [|exact (top_downloaded_without_nulls 10 downloads_table _ Hall eq_refl)].
  reflexivity.
Defined.

(** X5. When the limit is in range and at least the number of records, both
    top lists return every record of the table, each exactly once. *)
Theorem top_lists_return_every_record (limit : Z) (t : list Dataset) :
  limit_in_range limit →
  Z.of_nat (length t) ≤ limit →
  ∃ viewed downloaded,
    returned (get_top_viewed_datasets limit) t = Ok viewed ∧
    returned (get_top_downloaded_datasets limit) t = Ok downloaded ∧
    viewed ≡ₚ top_row <$> t ∧
    downloaded ≡ₚ top_row <$> t.
Proof.
  intros Hn Hlen. rewrite top_viewed_query, top_downloaded_query.
  rewrite !limit_in_range_Ok by done. simpl.
  eexists _, _. split; [done|]. split; [done|].
  rewrite !take_ge by (rewrite order_by_desc_Permutation; lia).
  by rewrite !order_by_desc_Permutation.
Qed.

(** The theorem at a limit of 3 on the table of 3 records. *)
Lemma top_lists_return_every_record_witness :
  ∃ viewed downloaded,
    returned (get_top_viewed_datasets 3) downloads_table = Ok viewed ∧
    returned (get_top_downloaded_datasets 3) downloads_table = Ok downloaded ∧
    viewed ≡ₚ top_row <$> downloads_table ∧
    downloaded ≡ₚ top_row <$> downloads_table.
Proof.
  apply (top_lists_return_every_record 3 downloads_table).
  - unfold limit_in_range, sql.bigint_max. lia.
  - simpl. lia.
Defined.

(** ** LIKE patterns *)

Lemma chars_app (s1 s2 : string) :
  sql.chars (s1 +:+ s2) = sql.chars s1 ++ sql.chars s2.
Proof.
  unfold sql.chars. induction s1 as [|c s1 IH]; [done|].
  change (String c s1 +:+ s2) with (String c (s1 +:+ s2)).
  simpl. by rewrite IH.
Qed.

Lemma like_chars_percent (p s : list ascii) :
  sql.like_chars ("%"%char :: p) s =
    sql.like_chars p s ||
    match s with
    | [] => false
    | _ :: s' => sql.like_chars ("%"%char :: p) s'
    end.
Proof. by destruct s. Qed.

Lemma like_chars_underscore (p s : list ascii) :
  sql.like_chars ("_"%char :: p) s =
    match s with [] => false | _ :: s' => sql.like_chars p s' end.
Proof. done. Qed.

Lemma like_chars_plain (c : ascii) (p s : list ascii) :
  plain c →
  sql.like_chars (c :: p) s =
    match s with
    | [] => false
    | d :: s' => bool_decide (c = d) && sql.like_chars p s'
    end.
Proof.
  intros (H1 & H2 & H3). simpl. by rewrite !bool_decide_false by done.
Qed.

Lemma lower_plain (c : ascii) : plain c → plain (sql.lower c).
Proof.
  unfold plain. destruct c as [[] [] [] [] [] [] [] []]; vm_compute;
    intros (H1 & H2 & H3); repeat split; congruence.
Qed.

(** A pattern that starts with [%] matches when the rest of the pattern
    matches some tail of the text. *)
Lemma like_chars_percent_iff (p s : list ascii) :
  sql.like_chars ("%"%char :: p) s = true ↔
  ∃ skipped rest, s = skipped ++ rest ∧ sql.like_chars p rest = true.
Proof.
  induction s as [|c s IH]; rewrite like_chars_percent, orb_true_iff.
  - split.
    + intros [H|H]; [|done]. by exists [], [].
    + intros (skipped & rest & Hs & H). left.
      symmetry in Hs. apply app_eq_nil in Hs as [-> ->]. done.
  - rewrite IH. split.
    + intros [H|(skipped & rest & -> & H)].
      * by exists [], (c :: s).
      * by exists (c :: skipped), rest.
    + intros ([|c' skipped] & rest & Hs & H); simpl in Hs.
      * left. by subst rest.
      * right. injection Hs as -> ->. eauto.
Qed.

Lemma like_chars_only_percent (s : list ascii) :
  sql.like_chars ["%"%char] s = true.
Proof. apply like_chars_percent_iff. exists s, []. by rewrite app_nil_r. Qed.

(** A pattern that starts with plain characters matches when the text
    starts with them and the rest of the pattern matches what follows. *)
Lemma like_chars_plain_prefix (q p s : list ascii) :
  Forall plain q →
  sql.like_chars (q ++ p) s = true ↔
  ∃ rest, s = q ++ rest ∧ sql.like_chars p rest = true.
Proof.
  intros Hq. revert s. induction Hq as [|c q Hc Hq IH]; intros s.
  - simpl. naive_solver.
  - change ((c :: q) ++ p) with (c :: (q ++ p)).
    rewrite like_chars_plain by done. destruct s as [|d s].
    + split; [done|]. by intros (rest & ? & _).
    + rewrite andb_true_iff, bool_decide_eq_true, IH. split.
      * intros [-> (rest & -> & H)]. eauto.
      * intros (rest & [= -> ->] & H). eauto.
Qed.

Lemma ilike_containment_pattern (q s : string) :
  sql.ilike (Some s) ("%" +:+ q +:+ "%") =
    Some (sql.like_chars
            ("%"%char :: (sql.lower <$> sql.chars q) ++ ["%"%char])
            (sql.lower <$> sql.chars s)).
Proof.
  unfold sql.ilike. by rewrite !chars_app, !fmap_app.
Qed.

Lemma is_capital_spec (n : nat) :
  sql.is_capital n = true ↔
  ((65 ≤ n ≤ 90) ∨ (192 ≤ n ≤ 222 ∧ n ≠ 215))%nat.
Proof.
  unfold sql.is_capital.
  rewrite orb_true_iff, !andb_true_iff, !Nat.leb_le, negb_true_iff,
    Nat.eqb_neq.
  lia.
Qed.

Lemma lower_nat (c : ascii) :
  nat_of_ascii (sql.lower c) =
    if sql.is_capital (nat_of_ascii c)
    then (nat_of_ascii c + 32)%nat else nat_of_ascii c.
Proof.
  unfold sql.lower. destruct (sql.is_capital (nat_of_ascii c)) eqn:H; [|done].
  apply is_capital_spec in H. apply nat_ascii_embedding. lia.
Qed.

Lemma nat_of_ascii_inj (a b : ascii) : nat_of_ascii a = nat_of_ascii b → a = b.
Proof.
  intros H. rewrite <- (ascii_nat_embedding a), <- (ascii_nat_embedding b).
  by rewrite H.
Qed.

(** The lower-case mapping identifies exactly the characters that are the
    same letter. *)
Lemma lower_eq_iff (a b : ascii) :
  sql.lower a = sql.lower b ↔ same_letter a b.
Proof.
  unfold same_letter, capital_of. split.
  - intros H%(f_equal nat_of_ascii). rewrite !lower_nat in H.
    destruct (sql.is_capital (nat_of_ascii a)) eqn:Ha,
             (sql.is_capital (nat_of_ascii b)) eqn:Hb.
    + left. apply nat_of_ascii_inj. lia.
    + apply is_capital_spec in Ha. right. left. split; [done|lia].
    + apply is_capital_spec in Hb. right. right. split; [done|lia].
    + left. by apply nat_of_ascii_inj.
  - assert (Hpair : ∀ u l,
      ((65 ≤ nat_of_ascii u ≤ 90)%nat ∨
       (192 ≤ nat_of_ascii u ≤ 222 ∧ nat_of_ascii u ≠ 215)%nat) →
      nat_of_ascii l = (nat_of_ascii u + 32)%nat →
      sql.lower u = sql.lower l).
    { intros u l Hu Hl. apply nat_of_ascii_inj. rewrite !lower_nat.
      apply is_capital_spec in Hu as Hu'. rewrite Hu'.
      destruct (sql.is_capital (nat_of_ascii l)) eqn:Hc; [|lia].
      apply is_capital_spec in Hc. lia. }
    intros [->|[[Hu Hl]|[Hu Hl]]]; [done| |symmetry]; by apply Hpair.
Qed.

Lemma fmap_lower_eq_iff (l1 l2 : list ascii) :
  sql.lower <$> l1 = sql.lower <$> l2 ↔ Forall2 same_letter l1 l2.
Proof.
  revert l2. induction l1 as [|a l1 IH]; intros [|b l2]; csimpl.
  - split; [constructor|done].
  - split; [done|inversion 1].
  - split; [done|inversion 1].
  - split.
    + intros [= Hab Hl]. constructor; [by apply lower_eq_iff|by apply IH].
    + inversion 1 as [|? ? ? ? Hab Hl]; subst.
      f_equal; [by apply lower_eq_iff|by apply IH].
Qed.

(** In lower case the one contains the other exactly when it does so
    letter by letter. *)
Lemma lower_containment (q s : string) :
  (∃ before after,
     sql.lower <$> sql.chars s =
       before ++ (sql.lower <$> sql.chars q) ++ after) ↔
  contains_ignoring_case q s.
Proof.
  unfold contains_ignoring_case, sql.chars. split.
  - intros (before & after & H).
    apply fmap_app_inv in H as (b & rest & -> & H & Hs).
    symmetry in H. apply fmap_app_inv in H as (m & a & Hm & -> & ->).
    exists b, m, a. split; [done|]. by apply fmap_lower_eq_iff.
  - intros (b & m & a & -> & Hm%fmap_lower_eq_iff).
    exists (sql.lower <$> b), (sql.lower <$> a).
    by rewrite !fmap_app, Hm.
Qed.

(** The text filter of a search, for a text without [%], [_] or a
    backslash: the name is not null and contains the text, the case of the
    letters ignored. *)
Lemma ilike_plain_text (q : string) (v : option string) :
  plain_text q →
  sql.ilike v ("%" +:+ q +:+ "%") = Some true ↔
  ∃ s, v = Some s ∧ contains_ignoring_case q s.
Proof.
  intros Hq. destruct v as [s|]; [|naive_solver].
  rewrite ilike_containment_pattern.
  assert (Hl : Forall plain (sql.lower <$> sql.chars q)).
  { apply Forall_fmap. eapply Forall_impl; [exact Hq|]. apply lower_plain. }
  setoid_rewrite <- lower_containment. split.
  - intros [= (skipped & rest & Hs & H)%like_chars_percent_iff].
    apply (like_chars_plain_prefix _ _ _ Hl) in H as (after & -> & _).
    exists s. split; [done|]. by exists skipped, after.
  - intros (s' & [= <-] & before & after & Hs). f_equal.
    apply like_chars_percent_iff.
    exists before, ((sql.lower <$> sql.chars q) ++ after).
    split; [done|]. apply (like_chars_plain_prefix _ _ _ Hl).
    exists after. split; [done|]. apply like_chars_only_percent.
Qed.

Lemma like_chars_underscores (k : nat) (s : list ascii) :
  sql.like_chars (replicate k "_"%char ++ ["%"%char]) s = true ↔
  (k ≤ length s)%nat.
Proof.
  revert s. induction k as [|k IH]; intros s; simpl replicate.
  - split; [simpl; lia|]. intros _. apply like_chars_only_percent.
  - change (("_"%char :: replicate k "_"%char) ++ ["%"%char])
      with ("_"%char :: (replicate k "_"%char ++ ["%"%char])).
    rewrite like_chars_underscore. destruct s as [|c s]; simpl.
    + split; [done|lia].
    + rewrite IH. lia.
Qed.

(** The text filter of a search, for a text of [k] underscores: the name is
    not null and has at least [k] characters. *)
Lemma ilike_underscores (k : nat) (v : option string) :
  sql.ilike v ("%" +:+ underscores k +:+ "%") = Some true ↔
  ∃ s, v = Some s ∧ (k ≤ String.length s)%nat.
Proof.
  destruct v as [s|]; [|naive_solver].
  rewrite ilike_containment_pattern.
  assert (Hk : sql.lower <$> sql.chars (underscores k)
               = replicate k "_"%char).
  { unfold sql.chars, underscores.
    rewrite list_ascii_of_string_of_list_ascii.
    induction k as [|k IH]; [done|]. csimpl. by rewrite IH. }
  assert (Hlen : length (sql.lower <$> sql.chars s) = String.length s).
  { rewrite length_fmap. unfold sql.chars.
    induction s as [|c s IH]; simpl; [done|]. by rewrite IH. }
  rewrite Hk. split.
  - intros [= (skipped & rest & Hs & H)%like_chars_percent_iff].
    apply like_chars_underscores in H. exists s. split; [done|].
    rewrite <- Hlen, Hs, length_app. lia.
  - intros (s' & [= <-] & Hs). f_equal.
    apply like_chars_percent_iff. exists [], (sql.lower <$> sql.chars s).
    split; [done|]. apply like_chars_underscores. by rewrite Hlen.
Qed.

(** ** Search *)

Lemma search_rows (q category agency : string) (limit : Z)
    (t : list Dataset) (out : list (gmap string json)) :
  returned (search_datasets q category agency limit) t = Ok out →
  out = search_row <$>
          take (Z.to_nat limit)
            (sql.order_by_desc page_views_total
               (filter (matches q category agency) t)).
Proof.
  rewrite search_query.
  destruct (sql.limit limit _) as [rows|e] eqn:Hl; simpl; [|done].
  intros [= <-]. by apply limit_inv in Hl as [_ ->].
Qed.

(** X8. What a search returns: the records that pass every filter that is
    not empty, ordered as top-viewed orders them and cut at the limit.  The
    rows returned and the matching records left out make up the matching
    records, each once; as many rows are returned as the limit allows; and
    no record left out could have been listed before a returned one. *)
Theorem search_returns_the_first_matches (q category agency : string)
    (limit : Z) (t : list Dataset) (out : list (gmap string json)) :
  returned (search_datasets q category agency limit) t = Ok out →
  ∃ kept dropped,
    out = search_row <$> kept ∧
    kept ++ dropped ≡ₚ filter (matches q category agency) t ∧
    length kept =
      (Z.to_nat limit `min`
         length (filter (matches q category agency) t))%nat ∧
    ∀ a b, a ∈ kept → b ∈ dropped → not_below page_views_total a b.
Proof.
  intros ->%search_rows. eexists _, _. split; [done|].
  destruct (take_order_by_desc page_views_total (Z.to_nat limit)
              (filter (matches q category agency) t)) as [Hperm Hdom].
  split; [exact Hperm|]. split; [|exact Hdom].
  by rewrite length_take, order_by_desc_Permutation.
Qed.

(** The theorem at category "Parks" and limit 1: of the two records of the
    category, "a" (9 views) is returned and "c" (4 views) is left out. *)
Lemma search_returns_the_first_matches_witness :
  ∃ out kept dropped,
    field "id" <$> out = [Some (JStr "a")] ∧
    out = search_row <$> kept ∧
    kept ++ dropped ≡ₚ filter (matches "" "Parks" "") downloads_table ∧
    length kept =
      (Z.to_nat 1 `min`
         length (filter (matches "" "Parks" "") downloads_table))%nat ∧
    ∀ a b, a ∈ kept → b ∈ dropped → not_below page_views_total a b.
Proof.
  destruct (search_returns_the_first_matches "" "Parks" "" 1 downloads_table
              _ eq_refl) as (kept & dropped & H).
  eexists _, kept, dropped. split; [|exact H]. reflexivity.
Defined.

(** The records a search returns and those it leaves out are the records
    of the table that pass the filters. *)
Lemma search_keeps_matches (q category agency : string) (limit : Z)
    (t : list Dataset) (out : list (gmap string json)) :
  returned (search_datasets q category agency limit) t = Ok out →
  ∃ kept dropped,
    out = search_row <$> kept ∧
    kept ++ dropped ≡ₚ filter (matches q category agency) t ∧
    length kept =
      (Z.to_nat limit `min`
         length (filter (matches q category agency) t))%nat ∧
    ∀ d, d ∈ kept ++ dropped ↔ d ∈ t ∧ matches q category agency d.
Proof.
  intros ->%search_rows. eexists _, _. split; [done|].
  destruct (take_order_by_desc page_views_total (Z.to_nat limit)
              (filter (matches q category agency) t)) as [Hperm _].
  split; [exact Hperm|].
  split; [by rewrite length_take, order_by_desc_Permutation|].
  intros d. rewrite Hperm, list_elem_of_filter. tauto.
Qed.

Lemma underscores_empty (k : nat) : underscores k = ""%string ↔ k = 0%nat.
Proof. by destruct k. Qed.

(** X6. The search text selects by containment, the case of the letters
    ignored.  For a text q without [%], [_] or a backslash, the records a
    search returns and the matching records the limit leaves out are the
    records of the table whose name is not null and contains q, in capital
    or small letters alike, and that pass the category and agency filters;
    as many of them are returned as the limit allows.  With q empty there
    is no condition on the name. *)
Theorem search_text_is_containment (q category agency : string)
    (limit : Z) (t : list Dataset) (out : list (gmap string json)) :
  plain_text q →
  returned (search_datasets q category agency limit) t = Ok out →
  ∃ kept dropped,
    out = search_row <$> kept ∧
    kept ++ dropped ≡ₚ filter (matches q category agency) t ∧
    length kept = (Z.to_nat limit `min` length (kept ++ dropped))%nat ∧
    ∀ d, d ∈ kept ++ dropped ↔
         d ∈ t ∧
         (q ≠ ""%string →
          ∃ nm, name d = Some nm ∧ contains_ignoring_case q nm) ∧
         (category ≠ ""%string → domain_category d = Some category) ∧
         (agency ≠ ""%string →
          dataset_information_agency d = Some agency).
Proof.
  intros Hq (kept & dropped & -> & Hperm & Hlen & Hin)%search_keeps_matches.
  exists kept, dropped. split; [done|]. split; [done|].
  split; [by rewrite Hperm|].
  intros d. rewrite Hin. unfold matches.
  pose proof (ilike_plain_text q (name d) Hq) as Hlike. tauto.
Qed.

(** The theorem on five records named "Central PARKS", "tree_map", "café",
    "ab" and not named, at limit 10: the text "park" finds the first, in
    capitals, and a capital E acute finds the third, with its small one. *)
Lemma search_text_is_containment_witness :
  (∃ out kept dropped,
     field "id" <$> out = [Some (JStr "a")] ∧
     out = search_row <$> kept ∧
     kept ++ dropped ≡ₚ filter (matches "park" "" "") names_table ∧
     length kept = (Z.to_nat 10 `min` length (kept ++ dropped))%nat ∧
     ∀ d, d ∈ kept ++ dropped ↔
          d ∈ names_table ∧
          ("park" ≠ ""%string →
           ∃ nm, name d = Some nm ∧ contains_ignoring_case "park" nm) ∧
          (("" : string) ≠ ""%string → domain_category d = Some "") ∧
          (("" : string) ≠ ""%string →
           dataset_information_agency d = Some "")) ∧
  (∃ out kept dropped,
     field "id" <$> out = [Some (JStr "d")] ∧
     out = search_row <$> kept ∧
     kept ++ dropped ≡ₚ filter (matches capital_e_acute "" "") names_table ∧
     length kept = (Z.to_nat 10 `min` length (kept ++ dropped))%nat ∧
     ∀ d, d ∈ kept ++ dropped ↔
          d ∈ names_table ∧
          (capital_e_acute ≠ ""%string →
           ∃ nm, name d = Some nm ∧
                 contains_ignoring_case capital_e_acute nm) ∧
          (("" : string) ≠ ""%string → domain_category d = Some "") ∧
          (("" : string) ≠ ""%string →
           dataset_information_agency d = Some "")).
Proof.
  assert (Hpark : plain_text "park").
  { unfold plain_text, plain. simpl. repeat constructor; discriminate. }
  assert (Hacute : plain_text capital_e_acute).
  { unfold plain_text, plain. simpl. repeat constructor; discriminate. }
  destruct (search_text_is_containment "park" "" "" 10 names_table
              _ Hpark eq_refl) as (kept & dropped & H).
  destruct (search_text_is_containment capital_e_acute "" "" 10 names_table
              _ Hacute eq_refl) as (kept' & dropped' & H').
  split.
  - eexists _, kept, dropped. split; [|exact H]. reflexivity.
  - eexists _, kept', dropped'. split; [|exact H']. reflexivity.
Defined.

(** X7. The search text is a LIKE pattern, not a literal: an underscore in
    it stands for any one character.  For a text of k underscores, k at
    least 1, the records a search returns and the matching records the
    limit leaves out are the records of the table whose name is not null
    and has at least k characters, whether or not it holds an underscore,
    and that pass the category and agency filters.  For k = 0 the text is
    empty and there is no condition on the name, a null name included. *)
Theorem search_text_of_underscores (k : nat) (category agency : string)
    (limit : Z) (t : list Dataset) (out : list (gmap string json)) :
  returned (search_datasets (underscores k) category agency limit) t
    = Ok out →
  ∃ kept dropped,
    out = search_row <$> kept ∧
    kept ++ dropped ≡ₚ filter (matches (underscores k) category agency) t ∧
    length kept = (Z.to_nat limit `min` length (kept ++ dropped))%nat ∧
    ∀ d, d ∈ kept ++ dropped ↔
         d ∈ t ∧
         ((1 ≤ k)%nat →
          ∃ nm, name d = Some nm ∧ (k ≤ String.length nm)%nat) ∧
         (category ≠ ""%string → domain_category d = Some category) ∧
         (agency ≠ ""%string →
          dataset_information_agency d = Some agency).
Proof.
  intros (kept & dropped & -> & Hperm & Hlen & Hin)%search_keeps_matches.
  exists kept, dropped. split; [done|]. split; [done|].
  split; [by rewrite Hperm|].
  intros d. rewrite Hin. unfold matches.
  pose proof (ilike_underscores k (name d)) as Hlike.
  pose proof (underscores_empty k) as Hk.
  assert (Hk' : underscores k ≠ ""%string ↔ (1 ≤ k)%nat) by (rewrite Hk; lia).
  tauto.
Qed.

(** The theorem on the same five records, at limit 10.  Three underscores
    find the three names of three characters or more, the most viewed
    first, of which one holds an underscore; no underscore at all finds
    the five records, the one without a name too. *)
Lemma search_text_of_underscores_witness :
  (∃ out kept dropped,
     field "id" <$> out
       = [Some (JStr "d"); Some (JStr "b"); Some (JStr "a")] ∧
     out = search_row <$> kept ∧
     kept ++ dropped ≡ₚ filter (matches (underscores 3) "" "") names_table ∧
     length kept = (Z.to_nat 10 `min` length (kept ++ dropped))%nat ∧
     ∀ d, d ∈ kept ++ dropped ↔
          d ∈ names_table ∧
          ((1 ≤ 3)%nat →
           ∃ nm, name d = Some nm ∧ (3 ≤ String.length nm)%nat) ∧
          (("" : string) ≠ ""%string → domain_category d = Some "") ∧
          (("" : string) ≠ ""%string →
           dataset_information_agency d = Some "")) ∧
  (∃ out kept dropped,
     field "id" <$> out
       = [Some (JStr "e"); Some (JStr "d"); Some (JStr "c");
          Some (JStr "b"); Some (JStr "a")] ∧
     out = search_row <$> kept ∧
     kept ++ dropped ≡ₚ filter (matches (underscores 0) "" "") names_table ∧
     length kept = (Z.to_nat 10 `min` length (kept ++ dropped))%nat ∧
     ∀ d, d ∈ kept ++ dropped ↔
          d ∈ names_table ∧
          ((1 ≤ 0)%nat →
           ∃ nm, name d = Some nm ∧ (0 ≤ String.length nm)%nat) ∧
          (("" : string) ≠ ""%string → domain_category d = Some "") ∧
          (("" : string) ≠ ""%string →
           dataset_information_agency d = Some "")).
Proof.
  destruct (search_text_of_underscores 3 "" "" 10 names_table _ eq_refl)
    as (kept & dropped & H).
  destruct (search_text_of_underscores 0 "" "" 10 names_table _ eq_refl)
    as (kept' & dropped' & H').
  split.
  - eexists _, kept, dropped. split; [|exact H]. reflexivity.
  - eexists _, kept', dropped'. split; [|exact H']. reflexivity.
Defined.

Lemma short_description_shown (v : option string) :
  shown_description v (short_description v).
Proof.
  unfold shown_description, short_description. destruct v as [s|]; [|done].
  unfold py.len.
  destruct (Z.ltb_spec 200 (Z.of_nat (String.length s))) as [Hlong|Hshort].
  - assert (Hs : py.truthy s = true).
    { apply truthy_true. intros ->. simpl in Hlong. lia. }
    rewrite Hs. simpl. eexists. split; [done|]. split; [|lia].
    intros _. split; [done|]. apply prefix_spec. lia.
  - rewrite andb_false_r. eexists. split; [done|]. split; [lia|done].
Qed.

(** X9. Every row a search returns is the row of a record of the table,
    with the record's id, and shows its description cut past 200
    characters: a null description stays null (the request does not fail
    on it), one of more than 200 characters is cut to the first 200
    followed by three dots, a shorter one is returned unchanged. *)
Theorem search_descriptions_cut_past_200 (q category agency : string)
    (limit : Z) (t : list Dataset) (out : list (gmap string json)) :
  returned (search_datasets q category agency limit) t = Ok out →
  Forall (λ o, ∃ d j,
      d ∈ t ∧ field "id" o = Some (JStr (id d)) ∧
      field "description" o = Some j ∧
      shown_description (description d) j) out.
Proof.
  intros ->%search_rows.
  apply Forall_fmap, Forall_take, Forall_forall. intros d Hd.
  exists d, (short_description (description d)).
  split; [|split; [done|split; [done|apply short_description_shown]]].
  rewrite order_by_desc_Permutation in Hd.
  by apply list_elem_of_filter in Hd as [_ ?].
Qed.

(** The theorem on descriptions of 201 characters, of 5 and null. *)
Lemma search_descriptions_cut_past_200_witness :
  ∃ out,
    field "description" <$> out =
      [Some (JStr (string_of_list_ascii (replicate 200 "x"%char) +:+ "..."));
       Some (JStr "short"); Some JNull] ∧
    Forall (λ o, ∃ d j,
        d ∈ descriptions_table ∧ field "id" o = Some (JStr (id d)) ∧
        field "description" o = Some j ∧
        shown_description (description d) j) out.
Proof.
  eexists. split;
    [|exact (search_descriptions_cut_past_200 "" "" "" 50 descriptions_table
               _ eq_refl)].
  vm_compute. reflexivity.
Defined.

(** ** Overview *)

Lemma overview_query (t : list Dataset) :
  returned get_overview_stats t =
    Ok (dict [
      ("total_datasets", JInt (sql.count_rows t));
      ("total_page_views",
         JInt (py.or_zero (sql.sum (page_views_total <$> t))));
      ("total_downloads", JInt (py.or_zero (sql.sum (download_count <$> t))));
      ("avg_weekly_views",
         JFloat (py.round
                   (py.float
                      (py.or_zero_q (sql.avg (page_views_last_week <$> t))))
                   2))
    ]).
Proof. reflexivity. Qed.

(** X10. For every table the overview succeeds; total_datasets is the
    number of records, and total_page_views and total_downloads are the sums
    of the two counters over all records, a missing counter adding nothing. *)
Theorem overview_totals (t : list Dataset) :
  ∃ o,
    returned get_overview_stats t = Ok o ∧
    field "total_datasets" o = Some (JInt (Z.of_nat (length t))) ∧
    field "total_page_views" o = Some (JInt (sum_or_zero page_views_total t)) ∧
    field "total_downloads" o = Some (JInt (sum_or_zero download_count t)).
Proof.
  eexists. split; [apply overview_query|].
  rewrite !or_zero_sum_column. done.
Qed.









(** ** Groups and totals *)

Lemma filter_disjoint_total {A} (w : A → Z) (P Q : A → Prop)
    `{∀ x, Decision (P x)} `{∀ x, Decision (Q x)} (l : list A) :
  (∀ x, P x → Q x → False) →
  sql.total (w <$> filter P l) + sql.total (w <$> filter Q l) =
    sql.total (w <$> filter (λ x, P x ∨ Q x) l).
Proof.
  intros HPQ. unfold sql.total. induction l as [|x l IH]; [done|].
  rewrite !filter_cons.
  destruct (decide (P x)) as [HP|HP], (decide (Q x)) as [HQ|HQ].
  - destruct (HPQ x HP HQ).
  - rewrite decide_True by auto. csimpl. lia.
  - rewrite decide_True by auto. csimpl. lia.
  - rewrite decide_False by tauto. done.
Qed.

Section weighted_partition.
Context `{EqDecision K} {A : Type} (key : A → K) (w : A → Z).

Lemma weights_of_keys (ks : list K) (rows : list A) :
  NoDup ks →
  sql.total ((λ k, sql.total (w <$> filter (λ r, key r = k) rows)) <$> ks)
  = sql.total (w <$> filter (λ r, key r ∈ ks) rows).
Proof.
  induction 1 as [|k ks Hk Hks IH]; csimpl.
  - rewrite (filter_iff _ (λ _, False)) by (intros; by rewrite elem_of_nil).
    induction rows as [|r rows IHr]; [done|].
    rewrite filter_cons_False; [exact IHr|tauto].
  - change (foldr Z.add 0 ?l) with (sql.total l) in *.
    rewrite IH.
    rewrite filter_disjoint_total by (intros r -> Hr; done).
    do 2 f_equal. apply filter_iff. intros r. rewrite elem_of_cons. done.
Qed.

(** What the groups weigh together is what the rows weigh. *)
Lemma group_by_weights (rows : list A) :
  sql.total ((λ g, sql.total (w <$> g.2)) <$> sql.group_by key rows)
  = sql.total (w <$> rows).
Proof.
  unfold sql.group_by, sql.distinct. rewrite <- list_fmap_compose.
  change (sql.total
    ((λ k, sql.total (w <$> filter (λ r, key r = k) rows)) <$>
       remove_dups (key <$> rows)) = sql.total (w <$> rows)).
  rewrite weights_of_keys by apply NoDup_remove_dups.
  rewrite filter_all; [done|]. apply Forall_forall. intros r Hr.
  rewrite elem_of_remove_dups. by apply list_elem_of_fmap_2.
Qed.
End weighted_partition.

Lemma total_ones {A} (l : list A) :
  sql.total ((λ _, 1) <$> l) = Z.of_nat (length l).
Proof. unfold sql.total. induction l as [|x l IH]; csimpl; lia. Qed.

Lemma int_fields_group_dict (label : string) (r : group_row) :
  label = "agency"%string ∨ label = "category"%string →
  field label (group_dict label r) = Some (of_text (group_key r)) ∧
  int_field "dataset_count" (group_dict label r) = dataset_count r ∧
  int_field "total_views" (group_dict label r) = py.or_zero (total_views r) ∧
  int_field "total_downloads" (group_dict label r)
    = py.or_zero (total_downloads r).
Proof. by intros [-> | ->]. Qed.

(** The totals of the groups of a column, over all its groups. *)
Lemma grouped_totals (column : Dataset → option string) (t : list Dataset) :
  sql.total (dataset_count <$> grouped column t)
    = Z.of_nat (length (filter (λ d, column d ≠ None) t)) ∧
  sql.total ((λ r, py.or_zero (total_views r)) <$> grouped column t)
    = sum_or_zero page_views_total (filter (λ d, column d ≠ None) t) ∧
  sql.total ((λ r, py.or_zero (total_downloads r)) <$> grouped column t)
    = sum_or_zero download_count (filter (λ d, column d ≠ None) t).
Proof.
  unfold grouped. rewrite <- where_isnot_null_filter.
  set (rows := sql.where_ (λ d, sql.isnot_null (column d)) t).
  repeat split.
  - rewrite (total_Permutation _ _
      (fmap_Permutation dataset_count _ _ (order_by_desc_Permutation _ _))).
    rewrite <- list_fmap_compose, <- total_ones.
    rewrite <- (group_by_weights column (λ _, 1) rows).
    f_equal. apply list_fmap_ext. intros _ g _. simpl.
    by rewrite count_id, total_ones.
  - rewrite (total_Permutation _ _
      (fmap_Permutation _ _ _ (order_by_desc_Permutation _ _))).
    rewrite <- list_fmap_compose. unfold sum_or_zero.
    rewrite <- (group_by_weights column
                 (λ d, default 0 (page_views_total d)) rows).
    f_equal. apply list_fmap_ext. intros _ g _. simpl.
    apply or_zero_sum_column.
  - rewrite (total_Permutation _ _
      (fmap_Permutation _ _ _ (order_by_desc_Permutation _ _))).
    rewrite <- list_fmap_compose. unfold sum_or_zero.
    rewrite <- (group_by_weights column
                 (λ d, default 0 (download_count d)) rows).
    f_equal. apply list_fmap_ext. intros _ g _. simpl.
    apply or_zero_sum_column.
Qed.

(** The same totals, read from the returned rows. *)
Lemma group_dict_totals (label : string) (column : Dataset → option string)
    (t : list Dataset) :
  label = "agency"%string ∨ label = "category"%string →
  sql.total
    (int_field "dataset_count" <$> (group_dict label <$> grouped column t))
    = Z.of_nat (length (filter (λ d, column d ≠ None) t)) ∧
  sql.total
    (int_field "total_views" <$> (group_dict label <$> grouped column t))
    = sum_or_zero page_views_total (filter (λ d, column d ≠ None) t) ∧
  sql.total
    (int_field "total_downloads" <$> (group_dict label <$> grouped column t))
    = sum_or_zero download_count (filter (λ d, column d ≠ None) t).
Proof.
  intros Hlabel.
  destruct (grouped_totals column t) as (Hn & Hv & Hd).
  rewrite <- Hn, <- Hv, <- Hd. rewrite <- !list_fmap_compose.
  repeat split; f_equal; apply list_fmap_ext; intros _ r _;
    by apply (int_fields_group_dict label).
Qed.

(** X12. The groups of analytics-by-category account for every record that
    has a category, once: their dataset_count add up to the number of those
    records, and their total_views and total_downloads to the sums of the
    two counters over those records, a missing counter adding nothing. *)
Theorem by_category_totals (t : list Dataset) :
  ∃ out,
    returned get_analytics_by_category t = Ok out ∧
    sql.total (int_field "dataset_count" <$> out)
      = Z.of_nat (length (filter (λ d, domain_category d ≠ None) t)) ∧
    sql.total (int_field "total_views" <$> out)
      = sum_or_zero page_views_total
          (filter (λ d, domain_category d ≠ None) t) ∧
    sql.total (int_field "total_downloads" <$> out)
      = sum_or_zero download_count
          (filter (λ d, domain_category d ≠ None) t).
Proof.
  eexists. split; [reflexivity|].
  apply (group_dict_totals "category"). by right.
Qed.

(** X13. On a table where every record has a category, the overview and
    analytics-by-category agree: total_datasets, total_page_views and
    total_downloads of the overview are the sums of dataset_count,
    total_views and total_downloads over the category groups. *)
Theorem by_category_adds_up_to_overview (t : list Dataset) :
  Forall (λ d, domain_category d ≠ None) t →
  ∃ groups o,
    returned get_analytics_by_category t = Ok groups ∧
    returned get_overview_stats t = Ok o ∧
    field "total_datasets" o =
      Some (JInt (sql.total (int_field "dataset_count" <$> groups))) ∧
    field "total_page_views" o =
      Some (JInt (sql.total (int_field "total_views" <$> groups))) ∧
    field "total_downloads" o =
      Some (JInt (sql.total (int_field "total_downloads" <$> groups))).
Proof.
  intros Hall. eexists _, _. split; [reflexivity|].
  split; [apply overview_query|].
  destruct (group_dict_totals "category" domain_category t)
    as (Hn & Hv & Hd); [by right|].
  rewrite (filter_all _ _ Hall) in Hn, Hv, Hd.
  rewrite Hn, Hv, Hd, !or_zero_sum_column. done.
Qed.

(** The theorem on a table of three records, each with a category. *)
Lemma by_category_adds_up_to_overview_witness :
  ∃ groups o,
    returned get_analytics_by_category downloads_table = Ok groups ∧
    returned get_overview_stats downloads_table = Ok o ∧
    field "total_datasets" o =
      Some (JInt (sql.total (int_field "dataset_count" <$> groups))) ∧
    field "total_page_views" o =
      Some (JInt (sql.total (int_field "total_views" <$> groups))) ∧
    field "total_downloads" o =
      Some (JInt (sql.total (int_field "total_downloads" <$> groups))).
Proof.
  apply (by_category_adds_up_to_overview downloads_table).
  repeat constructor; discriminate.
Defined.

Lemma grouped_keys_NoDup (column : Dataset → option string)
    (t : list Dataset) :
  NoDup (group_key <$> grouped column t).
Proof.
  unfold grouped. rewrite order_by_desc_Permutation.
  rewrite <- list_fmap_compose. apply (group_by_keys_NoDup column).
Qed.

Lemma grouped_key_elem_of (column : Dataset → option string)
    (t : list Dataset) (v : option string) :
  v ∈ group_key <$> grouped column t ↔
  ∃ k, v = Some k ∧ ∃ d, d ∈ t ∧ column d = Some k.
Proof.
  rewrite list_elem_of_fmap. setoid_rewrite grouped_elem_of. split.
  - intros (r & -> & k & Hd & ->). eauto.
  - intros (k & -> & Hd). eexists. split; [|eauto]. done.
Qed.

#[local] Instance of_text_inj : Inj (=) (=) of_text.
Proof. intros [x|] [y|]; simpl; congruence. Qed.

Lemma group_dict_keys (label : string) (rows : list group_row) :
  label = "agency"%string ∨ label = "category"%string →
  field label <$> (group_dict label <$> rows) =
    Some <$> (of_text <$> (group_key <$> rows)).
Proof.
  intros Hlabel. rewrite <- !list_fmap_compose. apply list_fmap_ext.
  intros _ r _. by apply (int_fields_group_dict label).
Qed.

(** X14. Analytics-by-category has one group for each distinct category
    stored, the empty string included, and no two groups share a key;
    list-categories lists the keys of those groups except the empty
    string. *)
Theorem category_groups_and_category_list (t : list Dataset) :
  ∃ groups categories,
    returned get_analytics_by_category t = Ok groups ∧
    returned get_categories t = Ok categories ∧
    NoDup (field "category" <$> groups) ∧
    (∀ k, Some (JStr k) ∈ field "category" <$> groups ↔
          ∃ d, d ∈ t ∧ domain_category d = Some k) ∧
    (∀ s, s ∈ categories ↔
          s ≠ ""%string ∧ Some (JStr s) ∈ field "category" <$> groups).
Proof.
  eexists _, _. split; [reflexivity|]. split; [reflexivity|].
  rewrite (group_dict_keys "category") by by right.
  assert (Hkey : ∀ k, Some (JStr k) ∈
      Some <$> (of_text <$> (group_key <$> grouped domain_category t)) ↔
      ∃ d, d ∈ t ∧ domain_category d = Some k).
  { intros k. rewrite (list_elem_of_fmap_inj Some).
    change (JStr k) with (of_text (Some k)).
    rewrite (list_elem_of_fmap_inj of_text), grouped_key_elem_of.
    naive_solver. }
  split; [|split; [exact Hkey|]].
  - apply (NoDup_fmap_2 Some), (NoDup_fmap_2 of_text), grouped_keys_NoDup.
  - intros s. rewrite Hkey. apply truthy_values_elem_of.
Qed.

(** X15. Analytics-by-agency returns one group for each distinct agency
    stored, up to 15 of them: with [n] distinct agencies in the table it
    returns [min 15 n] rows. *)
Theorem by_agency_number_of_groups (t : list Dataset) :
  ∃ out agencies,
    returned get_analytics_by_agency t = Ok out ∧
    NoDup agencies ∧
    (∀ k, k ∈ agencies ↔
          ∃ d, d ∈ t ∧ dataset_information_agency d = Some k) ∧
    length out = (15 `min` length agencies)%nat.
Proof.
  exists (group_dict "agency" <$>
            take 15 (grouped dataset_information_agency t)),
    (omap group_key (grouped dataset_information_agency t)).
  split; [reflexivity|].
  assert (Hkeys : Some <$>
      omap group_key (grouped dataset_information_agency t) =
      group_key <$> grouped dataset_information_agency t).
  { assert (Hall : Forall (λ r, is_Some (group_key r))
                     (grouped dataset_information_agency t)).
    { apply Forall_forall. intros r (k & _ & ->)%grouped_elem_of. by eexists. }
    induction Hall as [|r rows [k Hk] Hrows IH]; csimpl; [done|].
    rewrite Hk. csimpl. by rewrite IH. }
  split; [|split].
  - apply (NoDup_fmap_1 Some). rewrite Hkeys. apply grouped_keys_NoDup.
  - intros k. rewrite <- (list_elem_of_fmap_inj Some), Hkeys.
    rewrite grouped_key_elem_of. naive_solver.
  - rewrite length_fmap, length_take.
    rewrite <- (length_fmap Some (omap _ _)), Hkeys, length_fmap. done.
Qed.

Lemma matches_category_only (s : string) (t : list Dataset) :
  s ≠ ""%string →
  filter (matches "" s "") t = members domain_category s t.
Proof.
  intros Hs. unfold members. apply filter_iff. intros d. unfold matches.
  naive_solver.
Qed.

(** X16. A category that list-categories returns can be searched for: with
    that category as the only filter and a limit in range, search returns
    the records of the category, as many as the limit allows, every row
    showing that category; with a limit of at least 1 the result is not
    empty. *)
Theorem listed_category_finds_its_records (t : list Dataset)
    (categories : list string) (s : string) (limit : Z) :
  returned get_categories t = Ok categories →
  s ∈ categories →
  limit_in_range limit →
  ∃ out,
    returned (search_datasets "" s "" limit) t = Ok out ∧
    length out =
      (Z.to_nat limit `min` length (members domain_category s t))%nat ∧
    Forall (λ o, field "category" o = Some (JStr s)) out ∧
    (1 ≤ limit → out ≠ []).
Proof.
  intros [= <-] [Hs (d & Hd & Hcat)]%truthy_values_elem_of Hlimit.
  rewrite search_query, limit_in_range_Ok by done. simpl.
  rewrite matches_category_only by done.
  eexists. split; [done|].
  assert (Hlen : length (search_row <$> take (Z.to_nat limit)
      (sql.order_by_desc page_views_total (members domain_category s t)))
      = (Z.to_nat limit `min` length (members domain_category s t))%nat).
  { by rewrite length_fmap, length_take, order_by_desc_Permutation. }
  split; [exact Hlen|]. split.
  - apply Forall_fmap, Forall_take, Forall_forall. intros d' Hd'.
    rewrite order_by_desc_Permutation in Hd'.
    apply list_elem_of_filter in Hd' as [Hc _]. simpl.
    change (field "category" (search_row d'))
      with (Some (of_text (domain_category d'))).
    by rewrite Hc.
  - intros H1 Hnil. rewrite Hnil in Hlen. simpl in Hlen.
    pose proof (members_nonempty domain_category s t d Hd Hcat). lia.
Qed.

(** The theorem at the category "Parks", which two of three records have,
    with a limit of 5. *)
Lemma listed_category_finds_its_records_witness :
  "Parks"%string ∈ ["Roads"; "Parks"]%string ∧
  ∃ out,
    returned (search_datasets "" "Parks" "" 5) downloads_table = Ok out ∧
    length out =
      (Z.to_nat 5 `min`
         length (members domain_category "Parks" downloads_table))%nat ∧
    Forall (λ o, field "category" o = Some (JStr "Parks")) out ∧
    (1 ≤ 5 → out ≠ []).
Proof.
  assert (Hin : "Parks"%string ∈ ["Roads"; "Parks"]%string)
    by (right; left).
  split; [exact Hin|].
  apply (listed_category_finds_its_records downloads_table
           ["Roads"; "Parks"]%string "Parks" 5).
  - reflexivity.
  - exact Hin.
  - unfold limit_in_range, sql.bigint_max. lia.
Defined.

(** ** Engagement metrics, again *)

Lemma engagement_dict_total_views (r : Dataset) (o : gmap string json) :
  engagement_dict r = Ok o →
  int_field "total_views" o = py.or_zero (page_views_total r).
Proof.
  unfold engagement_dict. destruct (name r); [|done]. by intros [= <-].
Qed.

Lemma engaged_sorted (t : list Dataset) :
  StronglySorted
    (λ a b, py.or_zero (page_views_total b) ≤ py.or_zero (page_views_total a))
    (selected t).
Proof.
  unfold selected.
  eapply (StronglySorted_app_1_l _ _ (drop 20 (engaged t))).
  rewrite take_drop.
  pose proof (engaged_rows t) as Hrows.
  pose proof (order_by_desc_sorted page_views_total
    (sql.where_ (λ d, sql.gt (page_views_total d) (Some 0)) t)) as Hs.
  fold (engaged t) in Hs.
  induction Hs as [|d rows Hs IH Hd]; [constructor|].
  apply Forall_cons in Hrows as [(_ & v & Hv & Hpos) Hrows].
  constructor; [by apply IH|].
  rewrite Forall_forall in Hd, Hrows. apply Forall_forall. intros d' Hd'.
  specialize (Hd d' Hd'). destruct (Hrows d' Hd') as (_ & v' & Hv' & Hpos').
  rewrite Hv, Hv' in Hd |- *. simpl in *.
  destruct (Z.eqb_spec v 0), (Z.eqb_spec v' 0); lia.
Qed.

(** X17. When engagement-metrics succeeds it returns at most 20 rows, one
    for each selected record in order, every total_views is positive, and
    total_views never increases from a row to a later one: the records
    without total views are filtered out before the ordering. *)
Theorem engagement_rows_descend (t : list Dataset)
    (out : list (gmap string json)) :
  returned get_engagement_metrics t = Ok out →
  (length out ≤ 20)%nat ∧
  Forall (λ o, 0 < int_field "total_views" o) out ∧
  StronglySorted
    (λ a b, int_field "total_views" b ≤ int_field "total_views" a) out.
Proof.
  unfold returned. rewrite engagement_query. simpl.
  intros H%result_mapM_Ok.
  assert (Hlen : (length (selected t) ≤ 20)%nat).
  { unfold selected. rewrite length_take. lia. }
  assert (Hpos : Forall (λ r, 0 < py.or_zero (page_views_total r))
                   (selected t)).
  { apply Forall_take. eapply Forall_impl; [apply engaged_rows|].
    intros r (_ & v & -> & Hv). simpl. destruct (Z.eqb_spec v 0); lia. }
  pose proof (engaged_sorted t) as Hs.
  revert H Hlen Hpos Hs. generalize (selected t). intros rows H.
  induction H as [|r o rows out Hr H IH]; simpl; intros Hlen Hpos Hs.
  - repeat split; [lia|constructor|constructor].
  - apply Forall_cons in Hpos as [Hp Hpos].
    apply StronglySorted_inv in Hs as [Hs Hfirst].
    apply engagement_dict_total_views in Hr as Hv.
    assert (Hrest : Forall (λ o', int_field "total_views" o' ≤
                                  int_field "total_views" o) out).
    { rewrite Hv. clear IH Hs Hlen Hpos.
      induction H as [|r' o' rows out Hr' H IH']; [constructor|].
      apply Forall_cons in Hfirst as [Hle Hfirst].
      constructor; [|by apply IH'].
      by rewrite (engagement_dict_total_views _ _ Hr'). }
    destruct IH as (_ & Hp' & Hs'); [lia|done|done|].
    split; [apply Forall2_length in H; simpl in Hlen; lia|].
    split; [constructor; [by rewrite Hv|done]|by constructor].
Qed.

(** The theorem on the table of the two long names, 7 and 9 views. *)
Lemma engagement_rows_descend_witness :
  ∃ out,
    int_field "total_views" <$> out = [9; 7] ∧
    (length out ≤ 20)%nat ∧
    Forall (λ o, 0 < int_field "total_views" o) out ∧
    StronglySorted
      (λ a b, int_field "total_views" b ≤ int_field "total_views" a) out.
Proof.
  eexists. split;
    [|exact (engagement_rows_descend long_names_table _ eq_refl)].
  reflexivity.
Defined.

(** ** Publication timeline, again *)

Lemma total_indicator {A} (b : A → bool) (l : list A) :
  sql.total ((λ x, if b x then 1 else 0) <$> l) =
    Z.of_nat (length (filter (λ x, b x) l)).
Proof.
  unfold sql.total. induction l as [|x l IH]; [done|].
  csimpl. rewrite IH. destruct (b x) eqn:Hb.
  - rewrite filter_cons_True by (cbv beta; by rewrite Hb).
    simpl length. lia.
  - rewrite filter_cons_False by (cbv beta; rewrite Hb; intros []). lia.
Qed.

Lemma total_constant {A} (w : A → Z) (c : Z) (l : list A) :
  Forall (λ x, w x = c) l → sql.total (w <$> l) = c * Z.of_nat (length l).
Proof.
  unfold sql.total. induction 1 as [|x l Hx Hl IH]; csimpl; [lia|].
  rewrite IH, Hx. lia.
Qed.

Lemma kept_counts_total (l : list year_row) :
  sql.total (omap kept_entry l).*2 =
    sql.total ((λ r, from_option snd 0 (kept_entry r)) <$> l).
Proof.
  unfold sql.total. induction l as [|r l IH]; [done|]. csimpl.
  destruct (kept_entry r) as [[y c]|]; csimpl; rewrite IH; done.
Qed.

(** What a group of one year adds to the timeline: its size if the year is
    2000 or later, nothing otherwise. *)
Lemma kept_count_of_group (g : option Z * list Dataset) :
  Forall (λ d, sql.extract_year (publication_date d) = g.1) g.2 →
  from_option snd 0 (kept_entry (count_year g)) =
    sql.total ((λ d, if published_since_2000 d then 1 else 0) <$> g.2).
Proof.
  destruct g as [k ds]. simpl. intros Hds.
  rewrite (total_constant _
             (match k with Some y => if 2000 <=? y then 1 else 0
                         | None => 0 end)).
  - unfold kept_entry. simpl. rewrite count_id. destruct k as [y|]; [|done].
    destruct (Z.eqb_spec y 0), (Z.leb_spec 2000 y); simpl; lia.
  - eapply Forall_impl; [exact Hds|]. intros d Hd.
    unfold published_since_2000.
    rewrite <- extract_year_publication, Hd. by destruct k.
Qed.

(** X18. The counts of the publication timeline add up to the number of
    records published in 2000 or later: a record with an earlier
    publication date, or with none, is in no entry, and every other record
    is counted once. *)
Theorem timeline_counts_records_since_2000 (t : list Dataset) :
  ∃ out,
    returned get_publication_timeline t = Ok out ∧
    sql.total (int_field "count" <$> out) =
      Z.of_nat (length (filter (λ d, published_since_2000 d) t)).
Proof.
  exists (timeline_entry <$> omap kept_entry (timeline t)). split.
  { unfold returned, get_publication_timeline. simpl.
    by rewrite omap_timeline_dict. }
  rewrite <- list_fmap_compose.
  change (int_field "count" ∘ timeline_entry) with (@snd Z Z).
  rewrite kept_counts_total. unfold timeline.
  rewrite (total_Permutation _ _
    (fmap_Permutation _ _ _ (order_by_asc_Permutation _ _))).
  rewrite <- list_fmap_compose.
  set (rows := sql.where_ (λ d, sql.isnot_null (publication_date d)) t).
  set (key := λ d, sql.extract_year (publication_date d)).
  set (w := λ d, if published_since_2000 d then 1 else 0).
  transitivity (sql.total
    ((λ g, sql.total (w <$> g.2)) <$> sql.group_by key rows)).
  - f_equal. apply Forall_fmap_ext, Forall_forall. intros g Hg. simpl.
    apply kept_count_of_group.
    apply group_by_elem_of in Hg as [_ ->].
    apply Forall_forall. intros d Hd.
    by apply list_elem_of_filter in Hd as [? _].
  - rewrite (group_by_weights key w rows). unfold w.
    rewrite total_indicator. do 2 f_equal. unfold rows.
    apply filter_where_isnot_null. intros d.
    unfold published_since_2000, publication_year.
    by destruct (publication_date d).
Qed.

(** The theorem on five records published in 1999, 2005 (twice) and 2010,
    and one without a date: the entries are 2005 with count 2 and 2010 with
    count 1, three records in all, the three published since 2000. *)
Lemma timeline_counts_records_since_2000_witness :
  ∃ out,
    returned get_publication_timeline timeline_table = Ok out ∧
    int_field "year" <$> out = [2005; 2010] ∧
    int_field "count" <$> out = [2; 1] ∧
    id <$> filter (λ d, published_since_2000 d) timeline_table
      = ["b"; "d"; "e"]%string ∧
    sql.total (int_field "count" <$> out) = 3.
Proof.
  destruct (timeline_counts_records_since_2000 timeline_table)
    as (out & Hret & Hsum).
  exists out. split; [exact Hret|].
  assert (Hrun : returned get_publication_timeline timeline_table
                 = Ok (timeline_entry <$> [(2005, 2); (2010, 1)]))
    by reflexivity.
  rewrite Hrun in Hret. injection Hret as <-.
  split; [reflexivity|]. split; [reflexivity|]. split; [reflexivity|].
  exact Hsum.
Defined.

(** ** Search and top-viewed, at every limit *)

(** X19. With q, category and agency empty, search and top-viewed answer
    alike at every limit: both fail when the limit is out of range, and
    otherwise return the same records in the same order, their rows equal on
    the fields they share. *)
Theorem search_without_filters_at_any_limit (limit : Z) (t : list Dataset) :
  result_map (fmap (restrict common_fields))
    (returned (search_datasets "" "" "" limit) t) =
  result_map (fmap (restrict common_fields))
    (returned (get_top_viewed_datasets limit) t).
Proof.
  rewrite top_viewed_query.
  unfold returned, search_datasets, mbind, M_bind, query. cbv zeta.
  change (py.truthy "") with false. cbv iota.
  destruct (sql.limit limit _) as [rows|e]; simpl; [|done].
  f_equal. rewrite <- !list_fmap_compose. apply list_fmap_ext.
  intros _ d _. apply restrict_search_row.
Qed.

(** ** The grouped analytics, ordered *)

Lemma sum_is_Some (vals : list (option Z)) (v : option Z) :
  v ∈ vals → v ≠ None → sql.sum vals ≠ None.
Proof.
  intros Hin Hv. unfold sql.sum, sql.non_null.
  destruct (omap (λ v, v) vals) as [|x xs] eqn:H; [|done].
  destruct v as [x|]; [|done].
  assert (Hx : x ∈ omap (λ v, v) vals)
    by (apply list_elem_of_omap; eauto).
  rewrite H in Hx. by apply elem_of_nil in Hx.
Qed.

(** On a table where every record has its total views, every group has a
    sum. *)
Lemma grouped_total_views_Some (column : Dataset → option string)
    (t : list Dataset) :
  Forall (λ d, page_views_total d ≠ None) t →
  Forall (λ r, total_views r ≠ None) (grouped column t).
Proof.
  intros Hall. apply Forall_forall.
  intros r (k & (d & Hd & Hk) & ->)%grouped_elem_of. simpl.
  apply (sum_is_Some _ (page_views_total d)).
  - apply list_elem_of_fmap_2. by apply list_elem_of_filter.
  - rewrite Forall_forall in Hall. by apply Hall.
Qed.

Lemma grouped_sorted_without_nulls (label : string) (rows : list group_row) :
  label = "agency"%string ∨ label = "category"%string →
  Forall (λ r, total_views r ≠ None) rows →
  StronglySorted
    (λ a b, sql.desc_leb (total_views a) (total_views b) = true) rows →
  StronglySorted
    (λ a b, int_field "total_views" b ≤ int_field "total_views" a)
    (group_dict label <$> rows).
Proof.
  intros Hlabel Hall Hs.
  induction Hs as [|r rows Hs IH Hr]; csimpl; [constructor|].
  apply Forall_cons in Hall as [Hv Hall].
  constructor; [by apply IH|].
  apply Forall_fmap, Forall_forall. intros r' Hr'. simpl.
  destruct (int_fields_group_dict label r Hlabel) as (_ & _ & -> & _).
  destruct (int_fields_group_dict label r' Hlabel) as (_ & _ & -> & _).
  rewrite Forall_forall in Hr, Hall.
  specialize (Hr r' Hr'). specialize (Hall r' Hr').
  destruct (total_views r) as [x|], (total_views r') as [y|];
    simpl in *; try done.
  destruct (Z.eqb_spec x 0), (Z.eqb_spec y 0); lia.
Qed.

(** X20. On a table where every record has its total views, the rows of
    analytics-by-agency and of analytics-by-category come with total_views
    never increasing from one row to a later one. *)
Theorem analytics_descend_without_nulls (t : list Dataset) :
  Forall (λ d, page_views_total d ≠ None) t →
  ∃ by_agency by_category,
    returned get_analytics_by_agency t = Ok by_agency ∧
    returned get_analytics_by_category t = Ok by_category ∧
    StronglySorted
      (λ a b, int_field "total_views" b ≤ int_field "total_views" a)
      by_agency ∧
    StronglySorted
      (λ a b, int_field "total_views" b ≤ int_field "total_views" a)
      by_category.
Proof.
  intros Hall. eexists _, _. split; [reflexivity|]. split; [reflexivity|].
  split.
  - apply (grouped_sorted_without_nulls "agency"); [by left| |].
    + by apply Forall_take, grouped_total_views_Some.
    + eapply StronglySorted_app_1_l. rewrite take_drop.
      apply order_by_desc_sorted.
  - apply (grouped_sorted_without_nulls "category"); [by right| |].
    + by apply grouped_total_views_Some.
    + apply order_by_desc_sorted.
Qed.

(** The theorem on three records with 9, 2 and 4 total views in the
    categories Parks, Roads and Parks. *)
Lemma analytics_descend_without_nulls_witness :
  ∃ by_agency by_category,
    returned get_analytics_by_agency downloads_table = Ok by_agency ∧
    returned get_analytics_by_category downloads_table = Ok by_category ∧
    StronglySorted
      (λ a b, int_field "total_views" b ≤ int_field "total_views" a)
      by_agency ∧
    StronglySorted
      (λ a b, int_field "total_views" b ≤ int_field "total_views" a)
      by_category.
Proof.
  apply (analytics_descend_without_nulls downloads_table).
  repeat constructor; discriminate.
Defined.

(** ** Publication dates as text *)

Lemma append_assoc (a b c : string) : (a +:+ b) +:+ c = a +:+ (b +:+ c).
Proof.
  induction a as [|x a IH]; [done|].
  change (String x ((a +:+ b) +:+ c) = String x (a +:+ (b +:+ c))).
  by rewrite IH.
Qed.

Lemma length_append (a b : string) :
  String.length (a +:+ b) = (String.length a + String.length b)%nat.
Proof.
  induction a as [|x a IH]; [done|].
  change (S (String.length (a +:+ b)) = S (String.length a + String.length b)).
  by rewrite IH.
Qed.

Lemma digits_acc (w : nat) (n : Z) (acc : string) :
  py.digits w n acc = py.digits w n "" +:+ acc.
Proof.
  revert n acc. induction w as [|w IH]; intros n acc; [done|].
  simpl. rewrite (IH _ (String _ acc)), (IH _ (String _ "")).
  by rewrite append_assoc.
Qed.

Lemma length_digits (w : nat) (n : Z) : String.length (py.digits w n "") = w.
Proof.
  revert n. induction w as [|w IH]; intros n; [done|].
  simpl. rewrite digits_acc, length_append, IH. simpl. lia.
Qed.

Lemma digit_inj (n m : Z) : py.digit n = py.digit m → n `mod` 10 = m `mod` 10.
Proof.
  unfold py.digit. intros H.
  pose proof (Z.mod_pos_bound n 10 eq_refl).
  pose proof (Z.mod_pos_bound m 10 eq_refl).
  apply (f_equal nat_of_ascii) in H.
  rewrite !nat_ascii_embedding in H by lia. lia.
Qed.

Lemma digits_inj_acc (w : nat) (n m : Z) (acc acc' : string) :
  py.digits w n acc = py.digits w m acc' →
  String.length acc = String.length acc' →
  n `mod` 10 ^ Z.of_nat w = m `mod` 10 ^ Z.of_nat w ∧ acc = acc'.
Proof.
  revert n m acc acc'. induction w as [|w IH]; intros n m acc acc' H Hlen.
  - simpl in *. by rewrite !Z.mod_1_r.
  - simpl in H. apply IH in H as [Hdiv [= Hd ->]]; [|simpl; lia].
    split; [|done]. apply digit_inj in Hd.
    rewrite Nat2Z.inj_succ, Z.pow_succ_r by lia.
    rewrite !Z.rem_mul_r by lia. lia.
Qed.

Lemma digits_inj (w : nat) (n m : Z) :
  0 ≤ n < 10 ^ Z.of_nat w → 0 ≤ m < 10 ^ Z.of_nat w →
  py.digits w n "" = py.digits w m "" → n = m.
Proof.
  intros Hn Hm [H _]%digits_inj_acc; [|done].
  by rewrite !Z.mod_small in H.
Qed.

Lemma append_inj_length (a b c d : string) :
  String.length a = String.length c → a +:+ b = c +:+ d → a = c ∧ b = d.
Proof.
  revert c. induction a as [|x a IH]; intros [|y c] Hlen H; simpl in *;
    try done.
  injection H as -> H. apply IH in H as [-> ->]; [done|lia].
Qed.

(** X21. The text search gives for a publication date determines the date:
    two valid timestamps with the same ISO text are the same timestamp,
    microseconds included. *)
Theorem isoformat_determines_timestamp (ts1 ts2 : timestamp) :
  valid_timestamp ts1 → valid_timestamp ts2 →
  py.isoformat ts1 = py.isoformat ts2 → ts1 = ts2.
Proof.
  destruct ts1 as [y1 mo1 d1 h1 mi1 s1 us1], ts2 as [y2 mo2 d2 h2 mi2 s2 us2].
  unfold valid_timestamp, py.isoformat.
  cbn [ts_year ts_month ts_day ts_hour ts_minute ts_second ts_microsecond].
  intros (Hy1 & Hmo1 & Hd1 & Hh1 & Hmi1 & Hs1 & Hus1)
         (Hy2 & Hmo2 & Hd2 & Hh2 & Hmi2 & Hs2 & Hus2) H.
  repeat match type of H with
  | py.digits ?w ?n "" +:+ _ = py.digits ?w ?m "" +:+ _ =>
      let E := fresh "E" in
      apply append_inj_length in H as [E H];
        [apply digits_inj in E; [|simpl; lia..]
        |by rewrite !length_digits]
  | ?c +:+ _ = ?c +:+ _ =>
      apply (append_inj_length c _ c _) in H as [_ H]; [|done]
  end.
  subst. do 6 f_equal.
  destruct (Z.eqb_spec us1 0) as [->|H1], (Z.eqb_spec us2 0) as [->|H2].
  - done.
  - apply (f_equal String.length) in H.
    rewrite length_append, length_digits in H. done.
  - apply (f_equal String.length) in H.
    rewrite length_append, length_digits in H. done.
  - apply append_inj_length in H as [_ H]; [|done].
    apply digits_inj in H; [done|simpl; lia..].
Qed.

(** The theorem at midnight of 1 January 2021, whose text is
    "2021-01-01T00:00:00". *)
Lemma isoformat_determines_timestamp_witness :
  py.isoformat new_year_2021 = "2021-01-01T00:00:00"%string ∧
  new_year_2021 = new_year_2021.
Proof.
  split; [reflexivity|].
  apply (isoformat_determines_timestamp new_year_2021 new_year_2021).
  - unfold valid_timestamp, new_year_2021. simpl. lia.
  - unfold valid_timestamp, new_year_2021. simpl. lia.
  - reflexivity.
Defined.
